(** * surtest: a campaign-brief backend

    A shallow embedding of the three Python modules of the repository

    - [generator/services/rate_limiter.py] (class [RateLimiter]),
    - [generator/services/llm.py] (class [LLMService]),
    - [generator/views.py] (the view [generate_brief]),

    together with the properties of them that the specification states.

    Conventions of the embedding.

    - A reading of [time.time()] is an argument of the operation that takes
      it. A double is the rational number it stands for ([Q]); the
      subtraction of two doubles, [Double.sub], is the exact difference
      rounded to the nearest double, ties to even, as IEEE 754 has it.
    - The dictionary of the rate limiter is a [gmap]; the [defaultdict]
      behaviour (a missing key reads as the empty list) is [getitem].
    - A Python [str] is a [string], one [ascii] per character (the code
      points below 256).
    - A raised exception is a value [exn] (class and text); code that can
      raise returns [result].
    - [json.loads] and the provider's client are library code: they are
      section variables of the code that calls them.
    - The two floating-point entries of the telemetry, [latency_ms] and
      [estimated_cost_usd], are left out; the token counts are kept, and
      so is the exception that the expression of the cost can raise. *)

From Stdlib Require Import ZArith QArith Qround Qpower Lqa String Ascii List Lia Bool.
From stdpp Require Import gmap strings list fin_maps.

Local Open Scope Z_scope.

(** ** The doubles of Python *)

Module Double.

(** [2 ^ k] for an integer [k] of either sign. *)
Definition pow2 (k : Z) : Q := (2 ^ k)%Q.

(** The integer nearest to [q], the even one of two that are as near. *)
Definition rne (q : Q) : Z :=
  let f := Qfloor q in
  match (q - inject_Z f ?= 1 # 2)%Q with
  | Lt => f
  | Gt => f + 1
  | Eq => if Z.even f then f else f + 1
  end.

(** For a positive [x], the [k] with [2 ^ k <= x < 2 ^ (k + 1)]. *)
Definition ilog2 (x : Q) : Z :=
  let k := Z.log2 (Qnum x) - Z.log2 (Zpos (Qden x)) in
  if Qle_bool (pow2 k) x then k else k - 1.

(** The exponent of the last of the 53 bits of the double nearest to a
    positive [x]; it is [-1074] for the subnormal ones. *)
Definition exponent (x : Q) : Z := Z.max (ilog2 x - 52) (-1074).

Definition nearest_pos (x : Q) : Q :=
  (inject_Z (rne (x / pow2 (exponent x))) * pow2 (exponent x))%Q.

(** The doubles lie strictly between [- huge] and [huge]. *)
Definition huge : Q := pow2 1024.

(** The double nearest to [x], ties to even. A result of [huge] or more
    stands for the infinity that the doubles have there, and one of
    [- huge] or less for the negative infinity. *)
Definition nearest (x : Q) : Q :=
  match Qnum x with
  | Z0 => 0%Q
  | Zpos _ => nearest_pos x
  | Zneg _ => (- nearest_pos (- x))%Q
  end.

(** [x - y] on two doubles. *)
Definition sub (x y : Q) : Q := nearest (x - y).

(** [d < w] for a computed double [d] and a number [w], an [int] or a
    double: no number is above the infinity, and every number is above the
    negative one. *)
Definition ltb (d w : Q) : bool :=
  if Qle_bool huge d then false
  else if Qle_bool d (- huge) then true
  else match (d ?= w)%Q with
       | Lt => true
       | _ => false
       end.

(** The least positive [int] that rounds to no double: it is half way
    between the largest double and [huge]. *)
Definition int_overflow : Z := 2 ^ 1024 - 2 ^ 970.

(** [x] is the value of a double. *)
Definition representable (x : Q) : Prop :=
  (nearest x == x)%Q /\ (- huge < x)%Q /\ (x < huge)%Q.

End Double.

(** ** generator/services/rate_limiter.py *)

Module RateLimiter.

Section Limiter.

(** The keys of the dictionary: whatever [get_client_ip] hands over. *)
Context {K : Type} `{Countable K}.

(** The attributes set by [__init__]. *)
Record t : Type := mk {
  requests : gmap K (list Q);
  max_requests : Z;
  window_seconds : Q
}.

(** [RateLimiter()] with the two settings read from [django.conf]
    ([RATE_LIMIT_REQUESTS], a positive integer by the specification, and
    [RATE_LIMIT_WINDOW], a positive number of seconds). *)
Definition init (RATE_LIMIT_REQUESTS : Z) (RATE_LIMIT_WINDOW : Q) : t :=
  mk ∅ RATE_LIMIT_REQUESTS RATE_LIMIT_WINDOW.

(** [self.requests[ip_address]] on a [defaultdict(list)]. *)
Definition getitem (m : gmap K (list Q)) (ip_address : K) : list Q :=
  default [] (m !! ip_address).

(** The test [now - req_time < self.window_seconds]: the difference of the
    two doubles is computed, and compared with the window. *)
Definition in_window (window now req_time : Q) : bool :=
  Double.ltb (Double.sub now req_time) window.

(** [[req_time for req_time in l if now - req_time < self.window_seconds]] *)
Definition prune (window now : Q) (l : list Q) : list Q :=
  List.filter (in_window window now) l.

(** [len(l)], a Python integer. *)
Definition len (l : list Q) : Z := Z.of_nat (length l).

(** [is_allowed]: the returned boolean and the limiter afterwards. *)
Definition is_allowed (self : t) (ip_address : K) (now : Q) : bool * t :=
  let kept := prune (window_seconds self) now (getitem (requests self) ip_address) in
  let requests1 := <[ip_address := kept]> (requests self) in
  if max_requests self <=? len (getitem requests1 ip_address) then
    (false, mk requests1 (max_requests self) (window_seconds self))
  else
    (true,
     mk (<[ip_address := getitem requests1 ip_address ++ [now]]> requests1)
        (max_requests self) (window_seconds self)).

(** [get_remaining]: the returned integer and the limiter afterwards. *)
Definition get_remaining (self : t) (ip_address : K) (now : Q) : Z * t :=
  let kept := prune (window_seconds self) now (getitem (requests self) ip_address) in
  let requests1 := <[ip_address := kept]> (requests self) in
  (Z.max 0 (max_requests self - len (getitem requests1 ip_address)),
   mk requests1 (max_requests self) (window_seconds self)).

(** The list stored for an identity. *)
Definition stored (self : t) (ip_address : K) : list Q :=
  getitem (requests self) ip_address.

(** *** Sequential executions *)

Inductive call : Type :=
| IsAllowed (ip_address : K) (now : Q)
| GetRemaining (ip_address : K) (now : Q).

Definition call_ip (c : call) : K :=
  match c with IsAllowed ip _ | GetRemaining ip _ => ip end.

Definition call_now (c : call) : Q :=
  match c with IsAllowed _ now | GetRemaining _ now => now end.

Definition step (self : t) (c : call) : t :=
  match c with
  | IsAllowed ip now => snd (is_allowed self ip now)
  | GetRemaining ip now => snd (get_remaining self ip now)
  end.

Definition run (self : t) (cs : list call) : t := fold_left step cs self.

(** The clock never goes back along a list of readings. *)
Fixpoint nondecreasing (ts : list Q) : Prop :=
  match ts with
  | [] => True
  | t1 :: rest =>
      match rest with
      | [] => True
      | t2 :: _ => (t1 <= t2)%Q
      end /\ nondecreasing rest
  end.

(** [is_allowed] called for one identity at each of the readings [ts]:
    the answers in order, and the limiter afterwards. *)
Fixpoint calls (self : t) (ip_address : K) (ts : list Q) : list bool * t :=
  match ts with
  | [] => ([], self)
  | now :: rest =>
      let '(b, self1) := is_allowed self ip_address now in
      let '(bs, self2) := calls self1 ip_address rest in
      (b :: bs, self2)
  end.

End Limiter.

Arguments t K {_ _}.

End RateLimiter.

(** ** Python values used by the two other modules *)

Module Py.

(** *** Exceptions *)

(** The classes that occur, all below [Exception]; [Subclass] stands for
    a class of a library (those of the provider's client, for one). *)
Inductive exn_class : Type :=
| Exception_
| ValueError
| JSONDecodeError
| RuntimeError
| TypeError
| AttributeError
| IndexError
| KeyError
| ArithmeticError
| OverflowError
| Subclass (name : string) (base : exn_class).

#[global] Instance exn_class_eq_dec : EqDecision exn_class.
Proof. solve_decision. Defined.

(** The class and its bases, nearest first. *)
Fixpoint mro (c : exn_class) : list exn_class :=
  match c with
  | Exception_ => [Exception_]
  | JSONDecodeError => [JSONDecodeError; ValueError; Exception_]
  | OverflowError => [OverflowError; ArithmeticError; Exception_]
  | Subclass _ base => c :: mro base
  | _ => [c; Exception_]
  end.

Record exn : Type := Exn { class_of : exn_class; str : string }.

(** [isinstance(e, base)], which an [except base] clause tests. *)
Definition isinstance (e : exn) (base : exn_class) : bool :=
  bool_decide (base ∈ mro (class_of e)).

(** A computation that returns or raises. *)
Inductive result (A : Type) : Type :=
| Return (a : A)
| Raise (e : exn).

Arguments Return {A} a.
Arguments Raise {A} e.

Definition bind {A B : Type} (m : result A) (k : A -> result B) : result B :=
  match m with
  | Return a => k a
  | Raise e => Raise e
  end.

Definition raise {A : Type} (c : exn_class) (text : string) : result A :=
  Raise (Exn c text).

(** *** Numbers *)

(** The conversion of an [int] to a double, which a product of an [int]
    and a double starts with: the [int] is rounded to the nearest double,
    ties to even, and refused when that is out of the range of the
    doubles. *)
Definition int_to_float (n : Z) : result Q :=
  let x := Double.nearest (inject_Z n) in
  if Qle_bool Double.huge x || Qle_bool x (- Double.huge) then
    raise OverflowError "int too large to convert to float"
  else Return x.

(** *** Strings *)

(** The double quote and the line feed. *)
Definition dq : string := String (ascii_of_nat 34) EmptyString.
Definition nl : string := String (ascii_of_nat 10) EmptyString.

(** [c.isspace()] for a character below 256: TAB to CR, FS to US, space,
    NEL and the no-break space. *)
Definition isspace (c : ascii) : bool :=
  let n := N_of_ascii c in
  ((9 <=? n) && (n <=? 13) || (28 <=? n) && (n <=? 32)
   || (n =? 133) || (n =? 160))%N.

(** [s.lstrip()], [s.rstrip()] and [s.strip()]. *)
Fixpoint lstrip (s : string) : string :=
  match s with
  | EmptyString => EmptyString
  | String c rest => if isspace c then lstrip rest else s
  end.

Fixpoint rstrip (s : string) : string :=
  match s with
  | EmptyString => EmptyString
  | String c rest =>
      match rstrip rest with
      | EmptyString => if isspace c then EmptyString else String c EmptyString
      | kept => String c kept
      end
  end.

Definition strip (s : string) : string := rstrip (lstrip s).

(** [c.lower()] for a character below 256. *)
Definition lower_char (c : ascii) : ascii :=
  let n := N_of_ascii c in
  if ((65 <=? n) && (n <=? 90)
      || (192 <=? n) && (n <=? 222) && negb (n =? 215))%N
  then ascii_of_N (n + 32) else c.

Fixpoint lower (s : string) : string :=
  match s with
  | EmptyString => EmptyString
  | String c rest => String (lower_char c) (lower rest)
  end.

(** [sub in s] on two strings. *)
Fixpoint contains (sub s : string) : bool :=
  String.prefix sub s
  || match s with
     | EmptyString => false
     | String _ rest => contains sub rest
     end.

(** [sep.join(l)]. *)
Fixpoint join (sep : string) (l : list string) : string :=
  match l with
  | [] => EmptyString
  | [x] => x
  | x :: rest => x +:+ sep +:+ join sep rest
  end.

(** [s.split(',')[0]]: what stands before the first comma. *)
Fixpoint before_comma (s : string) : string :=
  match s with
  | EmptyString => EmptyString
  | String c rest =>
      if Ascii.eqb c ","%char then EmptyString else String c (before_comma rest)
  end.

(** [x in l] on a list of strings. *)
Definition mem (x : string) (l : list string) : bool :=
  existsb (String.eqb x) l.

(** *** What [json.loads] returns *)

#[local] Set Warnings "-register-all".

Inductive json : Type :=
| JNull
| JBool (b : bool)
| JInt (z : Z)
| JFloat (q : Q)
| JStr (s : string)
| JList (l : list json)
| JDict (d : gmap string json).

#[local] Set Warnings "register-all".

(** [type(v).__name__]. *)
Definition type_name (v : json) : string :=
  match v with
  | JNull => "NoneType"
  | JBool _ => "bool"
  | JInt _ => "int"
  | JFloat _ => "float"
  | JStr _ => "str"
  | JList _ => "list"
  | JDict _ => "dict"
  end.

(** [key in v] for a string [key]: a key of a dict, an element of a list,
    a substring of a string; anything else is no container. *)
Definition contains_key (key : string) (v : json) : result bool :=
  match v with
  | JDict d => Return (bool_decide (is_Some (d !! key)))
  | JList l =>
      Return (existsb (fun x => match x with
                                | JStr s => String.eqb key s
                                | _ => false
                                end) l)
  | JStr s => Return (contains key s)
  | _ => raise TypeError
           ("argument of type '" +:+ type_name v +:+ "' is not iterable")
  end.

(** [v[key]] for a string [key]. *)
Definition subscript (v : json) (key : string) : result json :=
  match v with
  | JDict d =>
      match d !! key with
      | Some x => Return x
      | None => raise KeyError ("'" +:+ key +:+ "'")
      end
  | JList _ => raise TypeError "list indices must be integers or slices, not str"
  | JStr _ => raise TypeError "string indices must be integers, not 'str'"
  | _ => raise TypeError ("'" +:+ type_name v +:+ "' object is not subscriptable")
  end.

(** [isinstance(v, list)] and, for a list, its [len]. *)
Definition list_len (v : json) : option Z :=
  match v with
  | JList l => Some (Z.of_nat (length l))
  | _ => None
  end.

End Py.

Notation "x <- m ;; k" := (Py.bind m (fun x => k))
  (at level 90, m at level 89, right associativity, only parsing).

(** ** generator/services/llm.py *)

Module LLMService.

Import Py.

Definition ALLOWED_PLATFORMS : list string := ["Instagram"; "TikTok"; "UGC"].
Definition ALLOWED_GOALS : list string := ["Awareness"; "Conversions"; "Content Assets"].
Definition ALLOWED_TONES : list string := ["Professional"; "Friendly"; "Playful"].

(** The literal in the source holds no entry. *)
Definition PROFANITY_WORDS : list string := [].

(** [__init__]: refuses a missing (empty) API key. *)
Definition init (OPENAI_API_KEY : string) : result unit :=
  if String.eqb OPENAI_API_KEY "" then
    raise ValueError "OPENAI_API_KEY not set in environment variables"
  else Return tt.

(** [validate_inputs]: the pair [(is_valid, error_message)]. *)
Definition validate_inputs (brand_name platform goal tone : string)
  : bool * option string :=
  if String.eqb brand_name "" || String.eqb (strip brand_name) "" then
    (false, Some "Brand name is required")
  else
    let brand_name_clean := strip brand_name in
    if Z.of_nat (String.length brand_name_clean) <? 2 then
      (false, Some "Brand name must be at least 2 characters")
    else if 100 <? Z.of_nat (String.length brand_name_clean) then
      (false, Some "Brand name must be less than 100 characters")
    else
      let brand_lower := lower brand_name_clean in
      if existsb (fun word => contains word brand_lower) PROFANITY_WORDS then
        (false, Some "Brand name contains inappropriate content")
      else if negb (mem platform ALLOWED_PLATFORMS) then
        (false, Some ("Platform must be one of: " +:+ join ", " ALLOWED_PLATFORMS))
      else if negb (mem goal ALLOWED_GOALS) then
        (false, Some ("Goal must be one of: " +:+ join ", " ALLOWED_GOALS))
      else if negb (mem tone ALLOWED_TONES) then
        (false, Some ("Tone must be one of: " +:+ join ", " ALLOWED_TONES))
      else (true, None).

(** *** The call of the provider *)

(** The arguments of [chat.completions.create]. *)
Record chat_request : Type := {
  model : string;
  messages : list (string * string);
  response_format : string;
  temperature : Q;
  max_tokens : Z;
  timeout : Z
}.

(** What the code reads of the provider's answer: the content of each
    choice ([None] is possible) and the usage report. *)
Record usage : Type := {
  total_tokens : Z;
  prompt_tokens : Z;
  completion_tokens : Z
}.

Record completion : Type := {
  choices : list (option string);
  usage_report : option usage
}.

(** The token counts of the returned telemetry. Its two floating-point
    entries, [latency_ms] and [estimated_cost_usd], are left out of the
    embedding. *)
Record telemetry : Type := {
  tokens_total : Z;
  tokens_prompt : Z;
  tokens_completion : Z
}.

(** The dictionary that [generate_brief] returns. *)
Record brief : Type := {
  brief_text : json;
  angles : json;
  criteria : json;
  telemetry_of : telemetry
}.

Definition system_prompt : string :=
  "You are an expert marketing strategist specializing in creator campaigns. "
  +:+ nl +:+
  "Generate concise, actionable campaign briefs. Always return exactly 3 content angles and 3 creator selection criteria."
  +:+ nl +:+
  "Keep briefs to 4-6 sentences. Be specific and platform-appropriate.".

Definition user_prompt (brand_name platform goal tone : string) : string :=
  "Generate a campaign brief for " +:+ brand_name +:+ "." +:+ nl +:+ nl +:+
  "Platform: " +:+ platform +:+ nl +:+
  "Goal: " +:+ goal +:+ nl +:+
  "Tone: " +:+ tone +:+ nl +:+ nl +:+
  "Return a JSON object with:" +:+ nl +:+
  "- " +:+ dq +:+ "brief" +:+ dq +:+ ": A 4-6 sentence campaign brief" +:+ nl +:+
  "- " +:+ dq +:+ "angles" +:+ dq +:+ ": Array of exactly 3 content angle suggestions" +:+ nl +:+
  "- " +:+ dq +:+ "criteria" +:+ dq +:+ ": Array of exactly 3 creator selection criteria bullets".

Definition request_for (brand_name platform goal tone : string) : chat_request :=
  {| model := "gpt-4o-mini";
     messages := [("system", system_prompt);
                  ("user", user_prompt brand_name platform goal tone)];
     response_format := "json_object";
     temperature := (4 # 10)%Q;
     max_tokens := 600;
     timeout := 30 |}.

Section Service.

(** The two library calls: [json.loads], and the provider's
    [chat.completions.create], which answers or raises. *)
Variable json_loads : string -> result json.
Variable create : chat_request -> result completion.

(** [response.choices[0].message.content] *)
Definition first_content (response : completion) : result (option string) :=
  match choices response with
  | c :: _ => Return c
  | [] => raise IndexError "list index out of range"
  end.

(** [json.loads(content)] *)
Definition loads (content : option string) : result json :=
  match content with
  | Some s => json_loads s
  | None => raise TypeError
              "the JSON object must be str, bytes or bytearray, not NoneType"
  end.

(** The [if] that tests the three keys. *)
Definition check_keys (parsed : json) : result unit :=
  has_brief <- contains_key "brief" parsed ;;
  missing <- (if negb has_brief then Return true
              else
                has_angles <- contains_key "angles" parsed ;;
                if negb has_angles then Return true
                else
                  has_criteria <- contains_key "criteria" parsed ;;
                  Return (negb has_criteria)) ;;
  if (missing : bool) then raise ValueError "Invalid response structure from LLM"
  else Return tt.

(** An [if] that tests one of the two arrays. *)
Definition check_array (parsed : json) (key message : string) : result unit :=
  v <- subscript parsed key ;;
  match list_len v with
  | Some n => if n =? 3 then Return tt else raise ValueError message
  | None => raise ValueError message
  end.

(** The three reads of [response.usage]. *)
Definition read_usage (response : completion) : result telemetry :=
  match usage_report response with
  | Some u =>
      Return {| tokens_total := total_tokens u;
                tokens_prompt := prompt_tokens u;
                tokens_completion := completion_tokens u |}
  | None => raise AttributeError "'NoneType' object has no attribute 'total_tokens'"
  end.

(** The expression of [estimated_cost_usd],
    [round((tokens_prompt * 0.15 + tokens_completion * 0.60) / 1_000_000, 6)]:
    each product converts its token count to a double, which can raise;
    the arithmetic on the doubles and [round] raise nothing, and the value
    is left out, as the entry of the telemetry is. *)
Definition estimated_cost_usd (tel : telemetry) : result unit :=
  _ <- int_to_float (tokens_prompt tel) ;;
  _ <- int_to_float (tokens_completion tel) ;;
  Return tt.

(** The body of the [try]. *)
Definition attempt (brand_name platform goal tone : string) : result brief :=
  response <- create (request_for brand_name platform goal tone) ;;
  content <- first_content response ;;
  parsed <- loads content ;;
  _ <- check_keys parsed ;;
  _ <- check_array parsed "angles" "Angles must be an array of exactly 3 items" ;;
  _ <- check_array parsed "criteria" "Criteria must be an array of exactly 3 items" ;;
  tel <- read_usage response ;;
  b <- subscript parsed "brief" ;;
  a <- subscript parsed "angles" ;;
  c <- subscript parsed "criteria" ;;
  _ <- estimated_cost_usd tel ;;
  Return {| brief_text := b; angles := a; criteria := c; telemetry_of := tel |}.

(** [generate_brief]: the [try] with its two [except] clauses, the
    first for [json.JSONDecodeError], the second for [Exception]. What a
    clause raises leaves the statement. *)
Definition generate_brief (brand_name platform goal tone : string) : result brief :=
  match attempt brand_name platform goal tone with
  | Return r => Return r
  | Raise e =>
      if isinstance e JSONDecodeError then
        raise ValueError ("Failed to parse LLM response as JSON: " +:+ str e)
      else if isinstance e Exception_ then
        raise RuntimeError ("LLM service error: " +:+ str e)
      else Raise e
  end.

End Service.

End LLMService.

(** ** generator/views.py *)

Module views.

Import Py.

(** What the view reads of the request. *)
Record http_request : Type := {
  method : string;
  HTTP_X_FORWARDED_FOR : option string;
  REMOTE_ADDR : option string;
  body : string
}.

(** The JSON bodies that the view sends. *)
Inductive payload : Type :=
| NoPayload
| ErrorPayload (error : string)
| RateLimitPayload (error : string) (remaining : Z)
| BriefPayload (result : LLMService.brief) (rate_limit_remaining : Z).

Record http_response : Type := { status : Z; content : payload }.

(** The view answers, or an exception leaves it. *)
Inductive outcome : Type :=
| Responds (r : http_response)
| Propagates (e : exn).

(** [get_client_ip]: the first entry of a non-empty forwarded-for header,
    else the socket address, which may be [None]. *)
Definition get_client_ip (request : http_request) : option string :=
  match HTTP_X_FORWARDED_FOR request with
  | Some x_forwarded_for =>
      if String.eqb x_forwarded_for "" then REMOTE_ADDR request
      else Some (before_comma x_forwarded_for)
  | None => REMOTE_ADDR request
  end.

(** [data.get(key, '').strip()] *)
Definition field (data : json) (key : string) : result string :=
  match data with
  | JDict d =>
      match default (JStr "") (d !! key) with
      | JStr s => Return (strip s)
      | v => raise AttributeError
               ("'" +:+ type_name v +:+ "' object has no attribute 'strip'")
      end
  | _ => raise AttributeError
           ("'" +:+ type_name data +:+ "' object has no attribute 'get'")
  end.

Section View.

Variable json_loads : string -> result json.
Variable create : LLMService.chat_request -> result LLMService.completion.
Variable OPENAI_API_KEY : string.

(** The [try] around the generation, with its three [except] clauses. *)
Definition respond (rate_limiter : RateLimiter.t (option string))
    (client_ip : option string) (later : Q)
    (brand_name platform goal tone : string)
  : outcome * RateLimiter.t (option string) :=
  match LLMService.generate_brief json_loads create brand_name platform goal tone with
  | Return result =>
      let '(remaining, rate_limiter1) :=
        RateLimiter.get_remaining rate_limiter client_ip later in
      (Responds {| status := 200; content := BriefPayload result remaining |},
       rate_limiter1)
  | Raise e =>
      if isinstance e ValueError then
        (Responds {| status := 400;
                     content := ErrorPayload ("Validation error: " +:+ str e) |},
         rate_limiter)
      else if isinstance e RuntimeError then
        (Responds {| status := 500;
                     content := ErrorPayload ("Service error: " +:+ str e) |},
         rate_limiter)
      else if isinstance e Exception_ then
        (Responds {| status := 500;
                     content := ErrorPayload ("Unexpected error: " +:+ str e) |},
         rate_limiter)
      else (Propagates e, rate_limiter)
  end.

(** What follows the parsing of the body. *)
Definition handle (rate_limiter : RateLimiter.t (option string))
    (client_ip : option string) (later : Q) (data : json)
  : outcome * RateLimiter.t (option string) :=
  let inputs :=
    brand_name <- field data "brand_name" ;;
    platform <- field data "platform" ;;
    goal <- field data "goal" ;;
    tone <- field data "tone" ;;
    _ <- LLMService.init OPENAI_API_KEY ;;
    Return (brand_name, platform, goal, tone) in
  match inputs with
  | Raise e => (Propagates e, rate_limiter)
  | Return (brand_name, platform, goal, tone) =>
      match LLMService.validate_inputs brand_name platform goal tone with
      | (false, error_message) =>
          (Responds {| status := 400;
                       content := match error_message with
                                  | Some m => ErrorPayload m
                                  | None => NoPayload
                                  end |},
           rate_limiter)
      | (true, _) =>
          respond rate_limiter client_ip later brand_name platform goal tone
      end
  end.

(** [generate_brief], the view. [now] is the reading of the clock in
    [is_allowed], [later] the one in [get_remaining]. *)
Definition generate_brief (rate_limiter : RateLimiter.t (option string))
    (request : http_request) (now later : Q)
  : outcome * RateLimiter.t (option string) :=
  if negb (String.eqb (method request) "POST") then
    (Responds {| status := 405; content := NoPayload |}, rate_limiter)
  else
    let client_ip := get_client_ip request in
    let '(allowed, rate_limiter1) :=
      RateLimiter.is_allowed rate_limiter client_ip now in
    if negb allowed then
      (Responds {| status := 429;
                   content := RateLimitPayload
                                "Rate limit exceeded. Please try again later." 0 |},
       rate_limiter1)
    else
      match json_loads (body request) with
      | Raise e =>
          if isinstance e JSONDecodeError then
            (Responds {| status := 400;
                         content := ErrorPayload "Invalid JSON in request body" |},
             rate_limiter1)
          else (Propagates e, rate_limiter1)
      | Return data => handle rate_limiter1 client_ip later data
      end.

End View.

End views.

(** ** The words of the specification

    Second definitions, written from the specification and not from the
    code, for the claims that compare the two. *)

Module Spec.

Import Py.

(** Section 4.2: the checks in their order, each with its message, over a
    set of profanity terms matched without regard to case. *)
Definition checks (terms : list string) (brand_name platform goal tone : string)
  : list (bool * string) :=
  let trimmed := strip brand_name in
  [ (String.eqb trimmed "", "Brand name is required");
    (Z.of_nat (String.length trimmed) <? 2,
     "Brand name must be at least 2 characters");
    (100 <? Z.of_nat (String.length trimmed),
     "Brand name must be less than 100 characters");
    (existsb (fun term => contains (lower term) (lower trimmed)) terms,
     "Brand name contains inappropriate content");
    (negb (mem platform ["Instagram"; "TikTok"; "UGC"]),
     "Platform must be one of: Instagram, TikTok, UGC");
    (negb (mem goal ["Awareness"; "Conversions"; "Content Assets"]),
     "Goal must be one of: Awareness, Conversions, Content Assets");
    (negb (mem tone ["Professional"; "Friendly"; "Playful"]),
     "Tone must be one of: Professional, Friendly, Playful") ].

(** First failure wins. *)
Fixpoint first_failure (cs : list (bool * string)) : option string :=
  match cs with
  | [] => None
  | (failed, message) :: rest => if failed then Some message else first_failure rest
  end.

Definition validate (terms : list string) (brand_name platform goal tone : string)
  : bool * option string :=
  match first_failure (checks terms brand_name platform goal tone) with
  | Some message => (false, Some message)
  | None => (true, None)
  end.

(** Section 4.3: a sequence of exactly 3 string-like items. *)
Definition three_strings (v : json) : bool :=
  match v with
  | JList l =>
      (length l =? 3)%nat
      && forallb (fun x => match x with JStr _ => true | _ => false end) l
  | _ => false
  end.

(** A sequence of exactly 3 items, whatever they are. *)
Definition three_items (v : json) : bool :=
  match v with
  | JList l => (length l =? 3)%nat
  | _ => false
  end.

(** An object with the keys [brief], [angles] and [criteria], the last two
    passing [array_ok]. *)
Definition shaped (array_ok : json -> bool) (v : json) : bool :=
  match v with
  | JDict d =>
      match d !! "brief", d !! "angles", d !! "criteria" with
      | Some _, Some a, Some c => array_ok a && array_ok c
      | _, _, _ => false
      end
  | _ => false
  end.

End Spec.

(** ** Sample data *)

Module Sample.

Import Py.

(** A limiter of two requests a minute that has seen one client at the
    instants 0, 5 and 50. *)
Definition sample_limiter : RateLimiter.t string :=
  RateLimiter.mk (<["10.0.0.7" := [0; 5; 50]%Q]> ∅) 2 60.

(** A fresh limiter of two requests a minute, and an execution of it. *)
Definition fresh_limiter : RateLimiter.t string := RateLimiter.init 2 60.

Definition sample_calls : list (RateLimiter.call (K := string)) :=
  [RateLimiter.IsAllowed "10.0.0.7" 0; RateLimiter.IsAllowed "10.0.0.7" 10;
   RateLimiter.GetRemaining "10.0.0.9" 20; RateLimiter.IsAllowed "10.0.0.7" 30;
   RateLimiter.IsAllowed "10.0.0.7" 65].

(** A limiter of one request a minute, and the doubles that the literals
    [0.3] and [60.3] denote: the readings of a clock are doubles. *)
Definition single_limiter : RateLimiter.t string := RateLimiter.init 1 60.

Definition double_0_3 : Q := Double.nearest (3 # 10).

Definition double_60_3 : Q := Double.nearest (603 # 10).

(** A string of [n] letters. *)
Fixpoint letters (n : nat) : string :=
  match n with
  | O => EmptyString
  | S m => String "a"%char (letters m)
  end.

(** Answers of a provider: a good one, one with two angles, one with four,
    one whose angles are numbers. The texts stand for their JSON. *)
Definition answer (angles_value : json) : json :=
  JDict (<["brief" := JStr "A short brief."]>
         (<["angles" := angles_value]>
          (<["criteria" := JList [JStr "reach"; JStr "fit"; JStr "voice"]]> ∅))).

Definition good_answer : json := answer (JList [JStr "one"; JStr "two"; JStr "three"]).
Definition two_angles : json := answer (JList [JStr "one"; JStr "two"]).
Definition four_angles : json :=
  answer (JList [JStr "one"; JStr "two"; JStr "three"; JStr "four"]).
Definition numeric_angles : json := answer (JList [JInt 1; JInt 2; JInt 3]).

(** The body of a request, parsed. *)
Definition request_data (platform : string) : json :=
  JDict (<["brand_name" := JStr "Acme"]>
         (<["platform" := JStr platform]>
          (<["goal" := JStr "Awareness"]>
           (<["tone" := JStr "Friendly"]> ∅)))).

(** A stub of [json.loads]: it knows the texts below and refuses the rest. *)
Definition loads_stub (text : string) : result json :=
  if String.eqb text "request" then Return (request_data "Instagram")
  else if String.eqb text "request for Snapchat" then Return (request_data "Snapchat")
  else if String.eqb text "good answer" then Return good_answer
  else if String.eqb text "two angles" then Return two_angles
  else if String.eqb text "four angles" then Return four_angles
  else if String.eqb text "numeric angles" then Return numeric_angles
  else raise JSONDecodeError "Expecting value: line 1 column 1 (char 0)".

(** A stub of the provider that answers with the given text. *)
Definition provider_stub (text : string)
  : LLMService.chat_request -> result LLMService.completion :=
  fun _ =>
    Return {| LLMService.choices := [Some text];
              LLMService.usage_report :=
                Some {| LLMService.total_tokens := 300;
                        LLMService.prompt_tokens := 100;
                        LLMService.completion_tokens := 200 |} |}.

(** A stub of the provider whose usage report counts [2 ^ 1024] prompt
    tokens for a good answer. *)
Definition provider_huge
  : LLMService.chat_request -> result LLMService.completion :=
  fun _ =>
    Return {| LLMService.choices := [Some "good answer"];
              LLMService.usage_report :=
                Some {| LLMService.total_tokens := 2 ^ 1024 + 200;
                        LLMService.prompt_tokens := 2 ^ 1024;
                        LLMService.completion_tokens := 200 |} |}.

(** A provider that cannot be reached. *)
Definition provider_down
  : LLMService.chat_request -> result LLMService.completion :=
  fun _ => raise (Subclass "APIConnectionError" Exception_) "Connection error.".

Definition post (text : string) : views.http_request :=
  {| views.method := "POST";
     views.HTTP_X_FORWARDED_FOR := None;
     views.REMOTE_ADDR := Some "10.0.0.7";
     views.body := text |}.

Definition view_limiter : RateLimiter.t (option string) := RateLimiter.init 5 60.

End Sample.

(** ** Histories of a limiter *)

Module History.

Section History.

Context {K : Type} `{Countable K}.

(** What a call adds to the granted readings of [ip_address]: its reading
    when it is an [is_allowed] for that identity that is granted. *)
Definition grant (self : RateLimiter.t K) (ip_address : K)
    (c : RateLimiter.call (K := K)) : list Q :=
  match c with
  | RateLimiter.IsAllowed ip now =>
      if bool_decide (ip = ip_address) && fst (RateLimiter.is_allowed self ip now)
      then [now] else []
  | RateLimiter.GetRemaining _ _ => []
  end.

(** The readings of the granted [is_allowed] calls for [ip_address], in
    order, when the calls [cs] run from [self]. *)
Fixpoint granted (self : RateLimiter.t K) (ip_address : K)
    (cs : list (RateLimiter.call (K := K))) : list Q :=
  match cs with
  | [] => []
  | c :: rest =>
      grant self ip_address c ++ granted (RateLimiter.step self c) ip_address rest
  end.

(** [t] lies in the window that ends at [limit_time], measured as the
    code measures a window: [t] is not after [limit_time] and the
    difference of the two, computed in doubles, is less than [window]. *)
Definition within (window limit_time t : Q) : bool :=
  RateLimiter.in_window window limit_time t && Qle_bool t limit_time.

End History.

End History.

(** A limiter of the view that holds five recent requests of one client. *)
Definition full_limiter : RateLimiter.t (option string) :=
  RateLimiter.mk (<[Some "10.0.0.7" := [0; 1; 2; 3; 4]%Q]> ∅) 5 60.

(** * Properties *)

Import Sample.

(** ** The rounding of the doubles *)

Section DoubleFacts.

Import Double.

Lemma pow2_pos k : (0 < pow2 k)%Q.
Proof. apply Qpower_0_lt. reflexivity. Qed.

Lemma pow2_add a b : (pow2 (a + b) == pow2 a * pow2 b)%Q.
Proof. apply Qpower_plus. discriminate. Qed.

Lemma pow2_int n : 0 <= n -> (pow2 n == inject_Z (2 ^ n))%Q.
Proof. intros Hn. unfold pow2. now rewrite Zpower_Qpower. Qed.

Lemma pow2_le a b : a <= b -> (pow2 a <= pow2 b)%Q.
Proof. intros Hle. apply Qpower_le_compat_l; [exact Hle | discriminate]. Qed.

Lemma pow2_lt_inv a b : (pow2 a < pow2 b)%Q -> a < b.
Proof. intros Hlt. apply (Qpower_lt_compat_l_inv 2); [exact Hlt | reflexivity]. Qed.

Lemma rne_cases q :
  (rne q = Qfloor q /\ (q - inject_Z (Qfloor q) <= 1 # 2)%Q)
  \/ (rne q = Qfloor q + 1 /\ (1 # 2 <= q - inject_Z (Qfloor q))%Q).
Proof.
  unfold rne.
  destruct (Qcompare_spec (q - inject_Z (Qfloor q)) (1 # 2)) as [Heq|Hlt|Hgt].
  - destruct (Z.even (Qfloor q)); [left|right]; split; try reflexivity;
      rewrite Heq; apply Qle_refl.
  - left. split; [reflexivity | now apply Qlt_le_weak].
  - right. split; [reflexivity | now apply Qlt_le_weak].
Qed.

Lemma rne_mono x y : (x <= y)%Q -> rne x <= rne y.
Proof.
  intros Hle. pose proof (Qfloor_resp_le x y Hle) as Hfloor.
  destruct (Z.eq_dec (Qfloor x) (Qfloor y)) as [Heq|Hne].
  - unfold rne. rewrite <- Heq.
    destruct (Qcompare_spec (x - inject_Z (Qfloor x)) (1 # 2)) as [Hx|Hx|Hx];
      destruct (Qcompare_spec (y - inject_Z (Qfloor x)) (1 # 2)) as [Hy|Hy|Hy];
      try (destruct (Z.even (Qfloor x))); try lia; exfalso; lra.
  - destruct (rne_cases x) as [[-> _]|[-> _]], (rne_cases y) as [[-> _]|[-> _]]; lia.
Qed.

Lemma rne_Z n : rne (inject_Z n) = n.
Proof.
  unfold rne. rewrite Qfloor_Z.
  destruct (Qcompare_spec (inject_Z n - inject_Z n) (1 # 2)) as [H|H|H];
    [exfalso; lra | reflexivity | exfalso; lra].
Qed.

Lemma rne_nonneg q : (0 <= q)%Q -> 0 <= rne q.
Proof. intros Hq. change 0 with (rne (inject_Z 0)) at 1. now apply rne_mono. Qed.

Lemma ilog2_spec x :
  (0 < x)%Q -> (pow2 (ilog2 x) <= x)%Q /\ (x < pow2 (ilog2 x + 1))%Q.
Proof.
  intros Hx. destruct x as [n d].
  assert (0 < n) as Hn.
  { unfold Qlt in Hx. simpl in Hx. lia. }
  unfold ilog2. cbn [Qnum Qden].
  set (a := Z.log2 n). set (b := Z.log2 (Z.pos d)).
  pose proof (Z.log2_spec n Hn) as Ha. fold a in Ha.
  pose proof (Z.log2_spec (Z.pos d) ltac:(lia)) as Hb. fold b in Hb.
  pose proof (Z.log2_nonneg n) as Ha0. fold a in Ha0.
  pose proof (Z.log2_nonneg (Z.pos d)) as Hb0. fold b in Hb0.
  rewrite !Z.pow_succ_r in Ha, Hb by assumption.
  assert (n # d == inject_Z n / inject_Z (Z.pos d))%Q as Hfrac
    by apply Qmake_Qdiv.
  set (x := (n # d)%Q) in *.
  assert (x * inject_Z (Z.pos d) == inject_Z n)%Q as Hmul.
  { rewrite Hfrac. field. discriminate. }
  assert (pow2 (a - b) * pow2 b == pow2 a)%Q as Hp.
  { rewrite <- pow2_add. now replace (a - b + b) with a by lia. }
  assert (pow2 (a - b + 1) == 2 * pow2 (a - b))%Q as Hup.
  { rewrite pow2_add. change (pow2 1) with 2%Q. ring. }
  assert (2 * pow2 (a - b - 1) == pow2 (a - b))%Q as Hdown.
  { replace (a - b) with ((a - b - 1) + 1) at 2 by lia.
    rewrite pow2_add. change (pow2 1) with 2%Q. ring. }
  rewrite (pow2_int a), (pow2_int b) in Hp by assumption.
  pose proof (pow2_pos (a - b)) as Hpos.
  pose proof (pow2_pos (a - b - 1)) as Hpos'.
  assert (inject_Z (2 ^ a) <= inject_Z n)%Q as HaQ.
  { rewrite <- Zle_Qle. lia. }
  assert (inject_Z n < 2 * inject_Z (2 ^ a))%Q as HaQ'.
  { change 2%Q with (inject_Z 2). rewrite <- inject_Z_mult, <- Zlt_Qlt. lia. }
  assert (inject_Z (2 ^ b) <= inject_Z (Z.pos d))%Q as HbQ.
  { rewrite <- Zle_Qle. lia. }
  assert (inject_Z (Z.pos d) < 2 * inject_Z (2 ^ b))%Q as HbQ'.
  { change 2%Q with (inject_Z 2). rewrite <- inject_Z_mult, <- Zlt_Qlt. lia. }
  assert (0 < inject_Z (2 ^ b))%Q as HB.
  { change 0%Q with (inject_Z 0). rewrite <- Zlt_Qlt. lia. }
  destruct (Qle_bool (pow2 (a - b)) x) eqn:Htest.
  - apply Qle_bool_iff in Htest. split; [exact Htest|].
    rewrite Hup. nra.
  - assert (x < pow2 (a - b))%Q as Hlt.
    { apply Qnot_le_lt. intros Hle. apply Qle_bool_iff in Hle. congruence. }
    replace (a - b - 1 + 1) with (a - b) by lia.
    split; [|exact Hlt]. nra.
Qed.

Lemma ilog2_mono x y : (0 < x)%Q -> (x <= y)%Q -> ilog2 x <= ilog2 y.
Proof.
  intros Hx Hle.
  destruct (ilog2_spec x Hx) as [Hlow _].
  destruct (ilog2_spec y ltac:(lra)) as [_ Hhigh].
  enough (ilog2 x < ilog2 y + 1) by lia.
  apply pow2_lt_inv. lra.
Qed.

(** Scaling by a power of two and rounding cannot cross a power of two. *)
Lemma scaled_pow2 e n : 0 <= n -> (pow2 (e + n) / pow2 e == inject_Z (2 ^ n))%Q.
Proof.
  intros Hn. rewrite pow2_add, (pow2_int n Hn).
  pose proof (pow2_pos e). field. lra.
Qed.

Lemma rounded_below x e n :
  0 <= n -> (x <= pow2 (e + n))%Q ->
  (inject_Z (rne (x / pow2 e)) * pow2 e <= pow2 (e + n))%Q.
Proof.
  intros Hn Hx. pose proof (pow2_pos e) as Hpos.
  assert (rne (x / pow2 e) <= 2 ^ n) as Hrne.
  { rewrite <- (rne_Z (2 ^ n)). apply rne_mono.
    rewrite <- (scaled_pow2 e n Hn).
    apply Qmult_le_compat_r; [exact Hx|].
    apply Qlt_le_weak, Qinv_lt_0_compat, Hpos. }
  rewrite Zle_Qle in Hrne.
  rewrite pow2_add, (pow2_int n Hn). nra.
Qed.

Lemma rounded_above y e n :
  0 <= n -> (pow2 (e + n) <= y)%Q ->
  (pow2 (e + n) <= inject_Z (rne (y / pow2 e)) * pow2 e)%Q.
Proof.
  intros Hn Hy. pose proof (pow2_pos e) as Hpos.
  assert (2 ^ n <= rne (y / pow2 e)) as Hrne.
  { rewrite <- (rne_Z (2 ^ n)) at 1. apply rne_mono.
    rewrite <- (scaled_pow2 e n Hn).
    apply Qmult_le_compat_r; [exact Hy|].
    apply Qlt_le_weak, Qinv_lt_0_compat, Hpos. }
  rewrite Zle_Qle in Hrne.
  rewrite pow2_add, (pow2_int n Hn). nra.
Qed.

Lemma nearest_pos_nonneg x : (0 < x)%Q -> (0 <= nearest_pos x)%Q.
Proof.
  intros Hx. unfold nearest_pos. pose proof (pow2_pos (exponent x)) as Hpos.
  assert (0 <= rne (x / pow2 (exponent x))) as Hrne.
  { apply rne_nonneg. apply Qlt_le_weak, Qlt_shift_div_l; [exact Hpos | lra]. }
  rewrite Zle_Qle in Hrne.
  apply Qmult_le_0_compat; [exact Hrne | apply Qlt_le_weak, Hpos].
Qed.

Lemma nearest_pos_mono x y :
  (0 < x)%Q -> (x <= y)%Q -> (nearest_pos x <= nearest_pos y)%Q.
Proof.
  intros Hx Hle. assert (0 < y)%Q as Hy by lra.
  pose proof (ilog2_mono x y Hx Hle) as Hlog.
  destruct (ilog2_spec x Hx) as [_ Hxhigh].
  destruct (ilog2_spec y Hy) as [Hylow _].
  unfold nearest_pos.
  destruct (Z.eq_dec (exponent x) (exponent y)) as [Heq|Hne].
  - rewrite Heq. pose proof (pow2_pos (exponent y)) as Hpos.
    assert (rne (x / pow2 (exponent y)) <= rne (y / pow2 (exponent y))) as Hrne.
    { apply rne_mono, Qmult_le_compat_r; [exact Hle|].
      apply Qlt_le_weak, Qinv_lt_0_compat, Hpos. }
    rewrite Zle_Qle in Hrne. nra.
  - assert (exponent x < exponent y /\ exponent y = ilog2 y - 52
            /\ ilog2 x + 1 <= ilog2 y) as (Hlt & Hey & Hk).
    { unfold exponent in *. lia. }
    apply Qle_trans with (pow2 (ilog2 y)).
    + replace (ilog2 y) with (exponent x + (ilog2 y - exponent x)) by lia.
      apply rounded_below; [lia|].
      replace (exponent x + (ilog2 y - exponent x)) with (ilog2 y) by lia.
      apply Qle_trans with (pow2 (ilog2 x + 1)); [lra | now apply pow2_le].
    + replace (ilog2 y) with (exponent y + 52) at 1 by lia.
      apply rounded_above; [lia|].
      now replace (exponent y + 52) with (ilog2 y) by lia.
Qed.

Lemma nearest_zero x : (x == 0)%Q -> nearest x = 0%Q.
Proof.
  intros Hx. unfold nearest. destruct x as [n d]. unfold Qeq in Hx. simpl in Hx.
  assert (n = 0) as -> by lia. reflexivity.
Qed.

Lemma nearest_positive x : (0 < x)%Q -> nearest x = nearest_pos x.
Proof.
  intros Hx. unfold nearest. destruct x as [[|n|n] d]; try reflexivity;
    unfold Qlt in Hx; simpl in Hx; lia.
Qed.

Lemma nearest_negative x : (x < 0)%Q -> nearest x = (- nearest_pos (- x))%Q.
Proof.
  intros Hx. unfold nearest. destruct x as [[|n|n] d]; try reflexivity;
    unfold Qlt in Hx; simpl in Hx; lia.
Qed.

(** Rounding to the nearest double is monotone. *)
Theorem nearest_mono x y : (x <= y)%Q -> (nearest x <= nearest y)%Q.
Proof.
  intros Hle.
  destruct (Q_dec x 0) as [[Hx|Hx]|Hx], (Q_dec y 0) as [[Hy|Hy]|Hy];
    rewrite ?(nearest_zero x), ?(nearest_zero y),
      ?(nearest_positive x), ?(nearest_positive y),
      ?(nearest_negative x), ?(nearest_negative y) by assumption;
    try (exfalso; lra).
  - assert (nearest_pos (- y) <= nearest_pos (- x))%Q
      by (apply nearest_pos_mono; lra). lra.
  - pose proof (nearest_pos_nonneg (- x) ltac:(lra)).
    pose proof (nearest_pos_nonneg y Hy). lra.
  - pose proof (nearest_pos_nonneg (- x) ltac:(lra)). lra.
  - now apply nearest_pos_mono.
  - apply nearest_pos_nonneg, Hy.
  - lra.
Qed.

(** The difference of a double with itself is zero. *)
Lemma sub_diag x : sub x x = 0%Q.
Proof. apply nearest_zero. ring. Qed.

(** The computed difference grows with the first double and shrinks with
    the second. *)
Lemma sub_mono x x' y y' :
  (x <= x')%Q -> (y' <= y)%Q -> (sub x y <= sub x' y')%Q.
Proof. intros Hx Hy. apply nearest_mono. lra. Qed.

(** Below a double the computed difference, below it the exact one. *)
Lemma sub_lt_exact window x y :
  representable window -> (sub x y < window)%Q -> (x - y < window)%Q.
Proof.
  intros [Hwindow _] Hlt. apply Qnot_le_lt. intros Hle.
  apply nearest_mono in Hle. unfold sub in Hlt. lra.
Qed.

Lemma huge_pos : (0 < huge)%Q.
Proof. apply pow2_pos. Qed.

Lemma Qle_bool_false x y : Qle_bool x y = false <-> (y < x)%Q.
Proof.
  rewrite <- not_true_iff_false, Qle_bool_iff. split.
  - apply Qnot_le_lt.
  - apply Qlt_not_le.
Qed.

(** What is below a number is so the more the smaller it is. *)
Lemma ltb_mono d d' w : (d <= d')%Q -> ltb d' w = true -> ltb d w = true.
Proof.
  pose proof huge_pos as Hhuge. unfold ltb. intros Hle.
  destruct (Qle_bool huge d') eqn:Htop'; [discriminate|].
  apply Qle_bool_false in Htop'.
  assert (Qle_bool huge d = false) as -> by (apply Qle_bool_false; lra).
  destruct (Qle_bool d (- huge)) eqn:Hbottom; [reflexivity|].
  apply Qle_bool_false in Hbottom.
  assert (Qle_bool d' (- huge) = false) as -> by (apply Qle_bool_false; lra).
  destruct (d' ?= w)%Q eqn:Hlt; try discriminate. intros _.
  change (d' < w)%Q in Hlt.
  assert (d < w)%Q as Hbelow by lra.
  change ((d ?= w)%Q = Lt) in Hbelow. now rewrite Hbelow.
Qed.

(** Against a double the comparison is the one of the two values. *)
Lemma ltb_true d w : representable w -> ltb d w = true <-> (d < w)%Q.
Proof.
  intros (_ & Hlow & Hhigh). unfold ltb.
  destruct (Qle_bool huge d) eqn:Htop.
  { apply Qle_bool_iff in Htop. split; [discriminate | intros Hlt; lra]. }
  destruct (Qle_bool d (- huge)) eqn:Hbottom.
  { apply Qle_bool_iff in Hbottom. split; [intros _; lra | reflexivity]. }
  change (d < w)%Q with ((d ?= w)%Q = Lt).
  destruct (d ?= w)%Q; split; congruence.
Qed.

(** Zero is below every positive number. *)
Lemma ltb_zero w : (0 < w)%Q -> ltb 0 w = true.
Proof.
  intros Hpos. pose proof huge_pos as Hhuge. unfold ltb.
  assert (Qle_bool huge 0 = false) as -> by (apply Qle_bool_false; lra).
  assert (Qle_bool 0 (- huge) = false) as -> by (apply Qle_bool_false; lra).
  change ((0 ?= w)%Q = Lt) in Hpos. now rewrite Hpos.
Qed.

End DoubleFacts.

(** ** The rate limiter *)

Section LimiterFacts.

Import RateLimiter.

Context {K : Type} `{Countable K}.

Implicit Types (self : RateLimiter.t K) (ip : K) (now t : Q) (l : list Q).

(** For a window that is a double, the test compares the computed
    difference with it. *)
Lemma in_window_true window now t :
  Double.representable window ->
  in_window window now t = true <-> (Double.sub now t < window)%Q.
Proof. intros Hwindow. unfold in_window. now apply ltb_true. Qed.

Lemma in_window_false window now t :
  Double.representable window ->
  in_window window now t = false <-> (window <= Double.sub now t)%Q.
Proof.
  intros Hwindow. rewrite <- not_true_iff_false, (in_window_true _ _ _ Hwindow).
  split.
  - apply Qnot_lt_le.
  - apply Qle_not_lt.
Qed.

(** A timestamp in the window at an instant is in the window at every
    earlier instant, and so is every newer timestamp. *)
Lemma in_window_earlier window now later t u :
  (now <= later)%Q -> (t <= u)%Q ->
  in_window window later t = true -> in_window window now u = true.
Proof.
  intros Hnow Ht. unfold in_window. apply ltb_mono, sub_mono; assumption.
Qed.

(** With a positive window the reading of a call is in its own window. *)
Lemma in_window_self window now :
  (0 < window)%Q -> in_window window now now = true.
Proof. intros Hwindow. unfold in_window. rewrite sub_diag. now apply ltb_zero. Qed.

(** For a window that is a double: what is in the window is less than the
    window old, and what is the window old, or older, is out. *)
Lemma in_window_exact window now t :
  Double.representable window ->
  in_window window now t = true -> (now - window < t)%Q.
Proof.
  intros Hwindow Hin. apply (in_window_true _ _ _ Hwindow) in Hin.
  pose proof (sub_lt_exact window now t Hwindow Hin). lra.
Qed.

Lemma in_window_old window now t :
  Double.representable window ->
  (t <= now - window)%Q -> in_window window now t = false.
Proof.
  intros Hwindow Hold. apply not_true_iff_false. intros Hin.
  pose proof (in_window_exact window now t Hwindow Hin). lra.
Qed.

Lemma elem_of_prune window now l t :
  t ∈ prune window now l <-> t ∈ l /\ in_window window now t = true.
Proof. unfold prune. rewrite !list_elem_of_In, filter_In. tauto. Qed.

Lemma prune_sublist window now l : sublist (prune window now l) l.
Proof.
  induction l as [|t l IH]; simpl; [constructor|].
  destruct (in_window window now t); now constructor.
Qed.

Lemma length_prune window now l : (length (prune window now l) <= length l)%nat.
Proof. apply sublist_length, prune_sublist. Qed.

Lemma prune_app window now l1 l2 :
  prune window now (l1 ++ l2) = prune window now l1 ++ prune window now l2.
Proof. apply List.filter_app. Qed.

(** Everything is kept when everything is in the window. *)
Lemma prune_all window now l :
  (forall t, t ∈ l -> in_window window now t = true) -> prune window now l = l.
Proof.
  induction l as [|t l IH]; intros Hall; simpl; [reflexivity|].
  assert (in_window window now t = true) as ->.
  { apply Hall. left. }
  f_equal. apply IH. intros u Hu. apply Hall. now right.
Qed.

Lemma getitem_insert m ip l : getitem (<[ip := l]> m) ip = l.
Proof. unfold getitem. now rewrite lookup_insert_eq. Qed.

Lemma getitem_insert_ne m ip ip' l :
  ip <> ip' -> getitem (<[ip := l]> m) ip' = getitem m ip'.
Proof. intros Hne. unfold getitem. now rewrite lookup_insert_ne. Qed.

(** The two operations with the re-reads of the dictionary resolved. *)
Lemma is_allowed_unfold self ip now :
  is_allowed self ip now =
    let kept := prune (window_seconds self) now (stored self ip) in
    if max_requests self <=? len kept then
      (false, mk (<[ip := kept]> (requests self))
                 (max_requests self) (window_seconds self))
    else
      (true, mk (<[ip := kept ++ [now]]> (requests self))
                (max_requests self) (window_seconds self)).
Proof.
  unfold is_allowed, stored. cbv zeta. rewrite getitem_insert.
  now rewrite insert_insert_eq.
Qed.

Lemma get_remaining_unfold self ip now :
  get_remaining self ip now =
    let kept := prune (window_seconds self) now (stored self ip) in
    (Z.max 0 (max_requests self - len kept),
     mk (<[ip := kept]> (requests self))
        (max_requests self) (window_seconds self)).
Proof. unfold get_remaining, stored. cbv zeta. now rewrite getitem_insert. Qed.

End LimiterFacts.

Section LimiterOperations.

Import RateLimiter.

Context {K : Type} `{Countable K}.

Implicit Types (self : RateLimiter.t K) (ip : K) (now t : Q) (l : list Q).



End LimiterOperations.

Example sample_is_allowed_denied :
  RateLimiter.is_allowed sample_limiter "10.0.0.7" 62
  = (false, RateLimiter.mk (<["10.0.0.7" := [5; 50]%Q]> ∅) 2 60).
Proof. vm_compute. reflexivity. Qed.

Example sample_is_allowed_granted :
  RateLimiter.is_allowed sample_limiter "10.0.0.7" 65
  = (true, RateLimiter.mk (<["10.0.0.7" := [50; 65]%Q]> ∅) 2 60).
Proof. vm_compute. reflexivity. Qed.



Section LimiterExecutions.

Import RateLimiter.

Context {K : Type} `{Countable K}.

Implicit Types (self : RateLimiter.t K) (ip : K) (now t : Q) (l ts : list Q).

Lemma step_settings self c :
  max_requests (step self c) = max_requests self
  /\ window_seconds (step self c) = window_seconds self.
Proof.
  destruct c as [ip now|ip now]; unfold step, call_ip, call_now.
  - rewrite is_allowed_unfold. cbv zeta.
    destruct (max_requests self <=? _); simpl; split; reflexivity.
  - rewrite get_remaining_unfold. simpl. split; reflexivity.
Qed.

Lemma run_snoc self cs c : run self (cs ++ [c]) = step (run self cs) c.
Proof. unfold run. now rewrite fold_left_app. Qed.

Lemma run_settings self cs :
  max_requests (run self cs) = max_requests self
  /\ window_seconds (run self cs) = window_seconds self.
Proof.
  induction cs as [|c cs IH] using rev_ind; [split; reflexivity|].
  rewrite run_snoc. destruct (step_settings (run self cs) c) as [-> ->].
  exact IH.
Qed.

(** One call never makes a list longer than the limit allows. *)
Lemma step_bounded self c :
  (forall ip, len (stored self ip) <= max_requests self) ->
  forall ip, len (stored (step self c) ip) <= max_requests (step self c).
Proof.
  intros Hbound ip.
  destruct (step_settings self c) as [-> _].
  pose proof (Hbound ip) as Hip.
  destruct c as [ip0 now|ip0 now]; unfold step.
  - rewrite is_allowed_unfold. cbv zeta.
    pose proof (length_prune (window_seconds self) now (stored self ip0)) as Hshort.
    pose proof (Hbound ip0) as Hip0.
    destruct (max_requests self <=? len (prune _ now (stored self ip0))) eqn:Hfull;
      unfold stored at 1; simpl.
    + destruct (decide (ip0 = ip)) as [->|Hne].
      * rewrite getitem_insert. unfold len in *. lia.
      * rewrite getitem_insert_ne by exact Hne. exact Hip.
    + apply Z.leb_gt in Hfull.
      destruct (decide (ip0 = ip)) as [->|Hne].
      * rewrite getitem_insert. unfold len in *. rewrite length_app. simpl. lia.
      * rewrite getitem_insert_ne by exact Hne. exact Hip.
  - rewrite get_remaining_unfold. unfold stored at 1. simpl.
    pose proof (length_prune (window_seconds self) now (stored self ip0)) as Hshort.
    pose proof (Hbound ip0) as Hip0.
    destruct (decide (ip0 = ip)) as [->|Hne].
    + rewrite getitem_insert. unfold len in *. lia.
    + rewrite getitem_insert_ne by exact Hne. exact Hip.
Qed.

(** What one call leaves for its identity is inside the window, and it was
    stored before or is the reading of that call. *)
Lemma step_stored self c t :
  (0 < window_seconds self)%Q ->
  Double.representable (window_seconds self) ->
  t ∈ stored (step self c) (call_ip c) ->
  (call_now c - window_seconds self < t)%Q
  /\ (t ∈ stored self (call_ip c) \/ t = call_now c).
Proof.
  intros Hwindow Hdouble.
  destruct c as [ip now|ip now]; unfold step, call_ip, call_now.
  - rewrite is_allowed_unfold. cbv zeta.
    destruct (max_requests self <=? _); unfold stored at 1; simpl;
      rewrite getitem_insert.
    + rewrite elem_of_prune. intros [Hin Hlt].
      split; [now apply in_window_exact | now left].
    + rewrite elem_of_app, elem_of_prune, list_elem_of_singleton.
      intros [[Hin Hlt]| ->];
        (split; [first [now apply in_window_exact | lra]|]);
        [now left | now right].
  - rewrite get_remaining_unfold. unfold stored at 1. simpl.
    rewrite getitem_insert, elem_of_prune.
    intros [Hin Hlt]. split; [now apply in_window_exact | now left].
Qed.

(** A stored timestamp is an initial one or the reading of some call. *)
Lemma run_stored self cs ip t :
  t ∈ stored (run self cs) ip ->
  t ∈ stored self ip \/ t ∈ map call_now cs.
Proof.
  induction cs as [|c cs IH] using rev_ind; [now left|].
  rewrite run_snoc, map_app, elem_of_app. simpl.
  intros Hin.
  assert (t ∈ stored (run self cs) ip \/ t = call_now c) as [Hold| ->].
  { revert Hin. destruct c as [ip0 now|ip0 now]; unfold step.
    - rewrite is_allowed_unfold. cbv zeta.
      destruct (max_requests (run self cs) <=? _); unfold stored at 1; simpl;
        (destruct (decide (ip0 = ip)) as [->|Hne];
         [rewrite getitem_insert | rewrite getitem_insert_ne by exact Hne]).
      + rewrite elem_of_prune. intros [Hin _]. now left.
      + now left.
      + rewrite elem_of_app, elem_of_prune, list_elem_of_singleton.
        intros [[Hin _]| ->]; [now left | now right].
      + now left.
    - rewrite get_remaining_unfold. unfold stored at 1. simpl.
      destruct (decide (ip0 = ip)) as [->|Hne];
        [rewrite getitem_insert | rewrite getitem_insert_ne by exact Hne].
      + rewrite elem_of_prune. intros [Hin _]. now left.
      + now left. }
  - destruct (IH Hold) as [?|?]; [now left | right; now left].
  - right. right. apply list_elem_of_singleton. reflexivity.
Qed.

Lemma nondecreasing_cons t ts :
  nondecreasing (t :: ts) -> nondecreasing ts /\ forall u, u ∈ ts -> (t <= u)%Q.
Proof.
  revert t. induction ts as [|t2 ts IH]; intros t [Hle Hrest].
  - split; [exact I|]. intros u Hu. inversion Hu.
  - split; [exact Hrest|]. intros u Hu.
    destruct (IH t2 Hrest) as [_ Hall].
    apply elem_of_cons in Hu as [->|Hu]; [exact Hle|].
    specialize (Hall u Hu). lra.
Qed.

Lemma nondecreasing_le_last ts final :
  nondecreasing ts -> last ts = Some final -> forall u, u ∈ ts -> (u <= final)%Q.
Proof.
  induction ts as [|t ts IH]; intros Hsorted Hlast u Hu; [inversion Hu|].
  destruct (nondecreasing_cons t ts Hsorted) as [Hrest Hall].
  destruct ts as [|t2 ts].
  - simpl in Hlast. injection Hlast as <-.
    apply list_elem_of_singleton in Hu as ->. lra.
  - change (last (t :: t2 :: ts)) with (last (t2 :: ts)) in Hlast.
    apply elem_of_cons in Hu as [->|Hu].
    + assert (final ∈ t2 :: ts) as Hfin.
      { apply last_Some_elem_of. exact Hlast. }
      apply Hall, Hfin.
    + now apply IH.
Qed.

(** C9. Start from a fresh limiter whose limit is not negative and whose
    window is a positive double, and run any sequence of [is_allowed] and
    [get_remaining] calls one after the other, the clock never going back.
    Then no identity has more than [max_requests] timestamps stored, and
    every timestamp stored for the identity of the last call is less than
    [window_seconds] before the reading of that call (and not after it). *)
Theorem limiter_invariant (limit : Z) (window : Q) (cs : list (call (K := K))) :
  0 <= limit ->
  (0 < window)%Q ->
  Double.representable window ->
  nondecreasing (map call_now cs) ->
  let self := run (init limit window) cs in
  (forall ip, len (stored self ip) <= limit)
  /\ (forall c, last cs = Some c ->
      forall t, t ∈ stored self (call_ip c) ->
                (call_now c - window < t)%Q /\ (t <= call_now c)%Q).
Proof.
  intros Hlimit Hwindow Hdouble Hclock self. split.
  - assert (forall ip, len (stored self ip) <= max_requests self) as Hbound.
    { subst self. clear Hclock. induction cs as [|c cs IH] using rev_ind.
      - intros ip. unfold stored, getitem. simpl. rewrite lookup_empty. simpl.
        exact Hlimit.
      - rewrite run_snoc. apply step_bounded, IH. }
    intros ip. specialize (Hbound ip).
    subst self. destruct (run_settings (init limit window) cs) as [Hsame _].
    rewrite Hsame in Hbound. exact Hbound.
  - intros c Hlast t Hin.
    destruct (last_Some cs c) as [[cs' ->] _]; [exact Hlast|].
    subst self. rewrite run_snoc in Hin.
    destruct (run_settings (init limit window) cs') as [_ Hw].
    apply step_stored in Hin;
      [|rewrite Hw; exact Hwindow|rewrite Hw; exact Hdouble].
    rewrite Hw in Hin. simpl in Hin. destruct Hin as [Hlow Hfrom].
    split; [exact Hlow|].
    destruct Hfrom as [Hold| ->]; [|lra].
    apply run_stored in Hold as [Hinit|Hcall].
    + unfold stored, getitem in Hinit. simpl in Hinit.
      rewrite lookup_empty in Hinit. inversion Hinit.
    + apply (nondecreasing_le_last (map call_now (cs' ++ [c]))).
      * exact Hclock.
      * rewrite map_app. simpl. apply last_snoc.
      * rewrite map_app. apply elem_of_app. now left.
Qed.

End LimiterExecutions.

Section LimiterWindow.

Import RateLimiter.

Context {K : Type} `{Countable K}.

Implicit Types (self : RateLimiter.t K) (ip : K) (now t : Q) (l ts : list Q).

Lemma calls_cons self ip now ts :
  calls self ip (now :: ts) =
    (fst (is_allowed self ip now) :: fst (calls (snd (is_allowed self ip now)) ip ts),
     snd (calls (snd (is_allowed self ip now)) ip ts)).
Proof.
  simpl. destruct (is_allowed self ip now) as [b self1]. simpl.
  now destruct (calls self1 ip ts) as [bs self2].
Qed.

Lemma is_allowed_settings self ip now :
  max_requests (snd (is_allowed self ip now)) = max_requests self
  /\ window_seconds (snd (is_allowed self ip now)) = window_seconds self.
Proof. apply (step_settings self (IsAllowed ip now)). Qed.

Lemma calls_settings self ip ts :
  max_requests (snd (calls self ip ts)) = max_requests self
  /\ window_seconds (snd (calls self ip ts)) = window_seconds self.
Proof.
  revert self. induction ts as [|now ts IH]; intros self; [split; reflexivity|].
  rewrite calls_cons. simpl snd.
  destruct (IH (snd (is_allowed self ip now))) as [-> ->].
  apply is_allowed_settings.
Qed.

(** A granted call stores the kept timestamps followed by its reading. *)
Lemma is_allowed_granted self ip now :
  fst (is_allowed self ip now) = true ->
  stored (snd (is_allowed self ip now)) ip
    = prune (window_seconds self) now (stored self ip) ++ [now]
  /\ len (prune (window_seconds self) now (stored self ip)) < max_requests self.
Proof.
  rewrite is_allowed_unfold. cbv zeta.
  destruct (max_requests self <=? _) eqn:Hfull; simpl; [discriminate|].
  intros _. apply Z.leb_gt in Hfull. split; [|exact Hfull].
  unfold stored. simpl. apply getitem_insert.
Qed.

(** The prunings of the calls at [ts], one after the other. *)
Lemma prunings_app window ts l1 l2 :
  fold_left (fun l t => prune window t l) ts (l1 ++ l2)
  = fold_left (fun l t => prune window t l) ts l1
    ++ fold_left (fun l t => prune window t l) ts l2.
Proof.
  revert l1 l2. induction ts as [|t ts IH]; intros l1 l2; [reflexivity|].
  simpl. now rewrite prune_app, IH.
Qed.

Lemma prunings_keep window ts now :
  (forall u, u ∈ ts -> in_window window u now = true) ->
  fold_left (fun l t => prune window t l) ts [now] = [now].
Proof.
  induction ts as [|t ts IH]; intros Hclose; [reflexivity|].
  simpl. assert (in_window window t now = true) as ->.
  { apply Hclose. left. }
  apply IH. intros u Hu. apply Hclose. now right.
Qed.

(** When all the calls at [ts] are granted and each of the readings is in
    the window of each other one, all of them are still stored
    afterwards. *)
Lemma calls_granted_stored ts : forall self ip,
  Forall (fun answer => answer = true) (fst (calls self ip ts)) ->
  (forall t u, t ∈ ts -> u ∈ ts -> in_window (window_seconds self) u t = true) ->
  stored (snd (calls self ip ts)) ip
  = fold_left (fun l t => prune (window_seconds self) t l) ts (stored self ip) ++ ts.
Proof.
  induction ts as [|now ts IH]; intros self ip Hall Hclose.
  - simpl. now rewrite app_nil_r.
  - rewrite calls_cons in Hall |- *. simpl fst in Hall. simpl snd.
    apply Forall_cons in Hall as [Hfirst Hall].
    destruct (is_allowed_granted self ip now Hfirst) as [Hstored _].
    destruct (is_allowed_settings self ip now) as [_ Hwindow].
    rewrite IH; [|exact Hall|].
    + rewrite Hwindow, Hstored, prunings_app, prunings_keep.
      * simpl. now rewrite <- app_assoc.
      * intros u Hu. apply Hclose; [left | now right].
    + rewrite Hwindow. intros t u Ht Hu. apply Hclose; now right.
Qed.

(** After a granted call, and any granted calls that follow, the stored
    list is within the limit. *)
Lemma calls_granted_bounded ts : forall self ip,
  ts <> [] ->
  Forall (fun answer => answer = true) (fst (calls self ip ts)) ->
  len (stored (snd (calls self ip ts)) ip) <= max_requests self.
Proof.
  induction ts as [|now ts IH]; intros self ip Hne Hall; [congruence|].
  rewrite calls_cons in Hall |- *. simpl fst in Hall. simpl snd.
  apply Forall_cons in Hall as [Hfirst Hall].
  destruct (is_allowed_granted self ip now Hfirst) as [Hstored Hroom].
  destruct (is_allowed_settings self ip now) as [Hlimit _].
  destruct ts as [|t2 ts].
  - simpl. rewrite Hstored. unfold len in *. rewrite length_app. simpl. lia.
  - rewrite <- Hlimit. apply IH; [discriminate | exact Hall].
Qed.

(** C2, as amended. Let [max_requests] calls of [is_allowed] for one
    identity, at readings [ts] that never go back and whose computed span
    (the last minus the first, as the doubles subtract) is less than
    [window_seconds], all be granted. Then exactly these readings are
    stored; a further call is refused when the computed difference between
    its reading and the oldest of them is less than [window_seconds], and
    granted when that difference is [window_seconds] or more, which for a
    window that is a double is the case whenever [window_seconds] or more
    have elapsed since the oldest. *)
Theorem limit_then_release self ip ts (first final : Q) :
  Double.representable (window_seconds self) ->
  Z.of_nat (length ts) = max_requests self ->
  head ts = Some first ->
  last ts = Some final ->
  nondecreasing ts ->
  (Double.sub final first < window_seconds self)%Q ->
  Forall (fun answer => answer = true) (fst (calls self ip ts)) ->
  let self' := snd (calls self ip ts) in
  stored self' ip = ts
  /\ (forall now, (Double.sub now first < window_seconds self)%Q ->
                  fst (is_allowed self' ip now) = false)
  /\ (forall now, (window_seconds self <= Double.sub now first)%Q ->
                  fst (is_allowed self' ip now) = true)
  /\ (forall now, (window_seconds self <= now - first)%Q ->
                  fst (is_allowed self' ip now) = true).
Proof.
  intros Hdouble Hcount Hhead Hlast Hsorted Hspan Hall self'.
  destruct ts as [|t0 rest]; [discriminate|].
  simpl in Hhead. injection Hhead as ->.
  destruct (nondecreasing_cons first rest Hsorted) as [_ Hfrom].
  assert (forall t, t ∈ first :: rest -> (first <= t)%Q) as Hlow.
  { intros t Ht. apply elem_of_cons in Ht as [->|Ht]; [lra | now apply Hfrom]. }
  pose proof (nondecreasing_le_last _ _ Hsorted Hlast) as Hhigh.
  apply (in_window_true _ _ _ Hdouble) in Hspan.
  assert (forall t u, t ∈ first :: rest -> u ∈ first :: rest ->
            in_window (window_seconds self) u t = true) as Hclose.
  { intros t u Ht Hu.
    apply (in_window_earlier _ u final first t); [now apply Hhigh | now apply Hlow|].
    exact Hspan. }
  assert (stored self' ip = first :: rest) as Hstored.
  { subst self'.
    pose proof (calls_granted_bounded (first :: rest) self ip
                  ltac:(discriminate) Hall) as Hbound.
    rewrite calls_granted_stored in Hbound |- *; try assumption.
    unfold len in Hbound. rewrite length_app in Hbound.
    destruct (fold_left _ (first :: rest) (stored self ip)) as [|x xs];
      [reflexivity|]. simpl in Hbound, Hcount. lia. }
  destruct (calls_settings self ip (first :: rest)) as [Hlimit Hwindow].
  fold self' in Hlimit, Hwindow.
  assert (forall now, in_window (window_seconds self) now first = false ->
            fst (is_allowed self' ip now) = true) as Hfree.
  { intros now Hnow. rewrite is_allowed_unfold. cbv zeta.
    rewrite Hstored, Hlimit, Hwindow. unfold prune. simpl. rewrite Hnow.
    pose proof (length_prune (window_seconds self) now rest) as Hshort.
    unfold prune in Hshort.
    assert ((max_requests self
             <=? len (List.filter (in_window (window_seconds self) now) rest)) = false)
      as ->; [|reflexivity].
    apply Z.leb_gt. unfold len. simpl in Hcount. lia. }
  split; [exact Hstored|]. split; [|split].
  - intros now Hnow. rewrite is_allowed_unfold. cbv zeta.
    rewrite Hstored, Hlimit, Hwindow.
    apply (in_window_true _ _ _ Hdouble) in Hnow.
    rewrite prune_all.
    + assert ((max_requests self <=? len (first :: rest)) = true) as ->; [|reflexivity].
      apply Z.leb_le. unfold len. lia.
    + intros t Ht.
      apply (in_window_earlier _ now now first t); [lra | now apply Hlow | exact Hnow].
  - intros now Hnow. apply Hfree, in_window_false; [exact Hdouble | exact Hnow].
  - intros now Hnow. apply Hfree, in_window_old; [exact Hdouble | lra].
Qed.

End LimiterWindow.

Example sample_calls_run :
  RateLimiter.run fresh_limiter sample_calls
  = RateLimiter.mk (<["10.0.0.7" := [10; 65]%Q]> (<["10.0.0.9" := []]> ∅)) 2 60.
Proof. vm_compute. reflexivity. Qed.

(** [limit_then_release] on a fresh limiter of two requests a minute
    called at the instants 0 and 10. *)
Lemma limit_then_release_witness :
  Double.representable (RateLimiter.window_seconds fresh_limiter)
  /\ Z.of_nat (length [0; 10]%Q) = RateLimiter.max_requests fresh_limiter
  /\ RateLimiter.nondecreasing [0; 10]%Q
  /\ (Double.sub 10 0 < RateLimiter.window_seconds fresh_limiter)%Q
  /\ RateLimiter.stored
       (snd (RateLimiter.calls fresh_limiter "10.0.0.7" [0; 10]%Q)) "10.0.0.7"
     = [0; 10]%Q
  /\ fst (RateLimiter.is_allowed
            (snd (RateLimiter.calls fresh_limiter "10.0.0.7" [0; 10]%Q))
            "10.0.0.7" 59) = false
  /\ fst (RateLimiter.is_allowed
            (snd (RateLimiter.calls fresh_limiter "10.0.0.7" [0; 10]%Q))
            "10.0.0.7" 60) = true.
Proof.
  assert (Double.representable (RateLimiter.window_seconds fresh_limiter)) as Hdouble
    by (vm_compute; repeat split).
  assert (RateLimiter.nondecreasing [0; 10]%Q) as Hsorted.
  { simpl. split; [|split; exact I]. vm_compute. discriminate. }
  assert (Z.of_nat (length [0; 10]%Q) = RateLimiter.max_requests fresh_limiter)
    as Hcount by reflexivity.
  assert (Double.sub 10 0 < RateLimiter.window_seconds fresh_limiter)%Q as Hspan
    by (vm_compute; reflexivity).
  assert (Forall (fun answer => answer = true)
            (fst (RateLimiter.calls fresh_limiter "10.0.0.7" [0; 10]%Q))) as Hall.
  { vm_compute. repeat constructor. }
  destruct (limit_then_release fresh_limiter "10.0.0.7" [0; 10]%Q 0 10
              Hdouble Hcount eq_refl eq_refl Hsorted Hspan Hall)
    as (Hstored & Hdeny & _ & Hfree).
  split; [exact Hdouble|]. split; [exact Hcount|]. split; [exact Hsorted|].
  split; [exact Hspan|]. split; [exact Hstored|].
  split.
  - apply Hdeny. vm_compute. reflexivity.
  - apply Hfree. vm_compute. discriminate.
Defined.

(** C2, the claim as it stands fails. A limiter of one request a minute
    grants a call at the double [0.3]; the call at the double [60.3] is
    made less than 60 seconds after it, yet it is granted: the difference
    of the two readings, computed in doubles, is 60. *)
Lemma limit_then_release_counterexample :
  Z.of_nat (length [double_0_3]) = RateLimiter.max_requests single_limiter
  /\ fst (RateLimiter.calls single_limiter "10.0.0.7" [double_0_3]) = [true]
  /\ RateLimiter.stored
       (snd (RateLimiter.calls single_limiter "10.0.0.7" [double_0_3])) "10.0.0.7"
     = [double_0_3]
  /\ Double.representable double_0_3
  /\ Double.representable double_60_3
  /\ (0 < double_60_3 - double_0_3
      < RateLimiter.window_seconds single_limiter)%Q
  /\ (Double.sub double_60_3 double_0_3
      == RateLimiter.window_seconds single_limiter)%Q
  /\ fst (RateLimiter.is_allowed
            (snd (RateLimiter.calls single_limiter "10.0.0.7" [double_0_3]))
            "10.0.0.7" double_60_3) = true.
Proof. vm_compute. repeat split; congruence. Qed.

(** [limiter_invariant] on the sample execution, whose last call is made
    at the instant 65. *)
Lemma limiter_invariant_witness :
  RateLimiter.nondecreasing (map RateLimiter.call_now sample_calls)
  /\ (forall ip,
        RateLimiter.len (RateLimiter.stored (RateLimiter.run fresh_limiter sample_calls) ip)
        <= 2)
  /\ (forall t,
        t ∈ RateLimiter.stored (RateLimiter.run fresh_limiter sample_calls) "10.0.0.7" ->
        (65 - 60 < t)%Q /\ (t <= 65)%Q).
Proof.
  assert (RateLimiter.nondecreasing (map RateLimiter.call_now sample_calls)) as Hclock.
  { simpl. repeat split; vm_compute; discriminate. }
  assert (0 <= 2) as Hlimit by lia.
  assert (0 < 60)%Q as Hwindow by (vm_compute; reflexivity).
  assert (Double.representable 60) as Hdouble by (vm_compute; repeat split).
  destruct (limiter_invariant 2 60 sample_calls Hlimit Hwindow Hdouble Hclock)
    as [Hbound Hrecent].
  split; [exact Hclock|]. split; [exact Hbound|].
  exact (Hrecent (RateLimiter.IsAllowed "10.0.0.7" 65) eq_refl).
Defined.

(** ** The validation of the inputs *)

Section Validation.

Import Py LLMService.

Implicit Types (brand_name platform goal tone : string).

Lemma length_zero_empty (s : string) : String.length s = 0%nat <-> s = EmptyString.
Proof. destruct s; simpl; split; congruence. Qed.

Lemma eqb_empty_length (s : string) :
  String.eqb s "" = (String.length s =? 0)%nat.
Proof. now destruct s. Qed.

(** The first test of [validate_inputs] is a test on the trimmed name. *)
Lemma required_test brand_name :
  String.eqb brand_name "" || String.eqb (strip brand_name) ""
  = String.eqb (strip brand_name) "".
Proof.
  destruct (String.eqb_spec brand_name "") as [->|_]; reflexivity.
Qed.

Lemma validate_inputs_refines brand_name platform goal tone :
  validate_inputs brand_name platform goal tone
  = Spec.validate PROFANITY_WORDS brand_name platform goal tone.
Proof.
  unfold validate_inputs, Spec.validate, Spec.checks. cbv zeta.
  rewrite required_test. unfold PROFANITY_WORDS.
  cbn [Spec.first_failure existsb].
  destruct (String.eqb (strip brand_name) ""); [reflexivity|].
  destruct (Z.of_nat (String.length (strip brand_name)) <? 2); [reflexivity|].
  destruct (100 <? Z.of_nat (String.length (strip brand_name))); [reflexivity|].
  change ALLOWED_PLATFORMS with ["Instagram"; "TikTok"; "UGC"].
  change ALLOWED_GOALS with ["Awareness"; "Conversions"; "Content Assets"].
  change ALLOWED_TONES with ["Professional"; "Friendly"; "Playful"].
  destruct (mem platform _); [|reflexivity].
  destruct (mem goal _); [|reflexivity].
  destruct (mem tone _); reflexivity.
Qed.

(** C6. [validate_inputs] is the first failure of the checks of the
    specification taken in their order: empty name, minimum length, maximum
    length, profanity, platform, goal, tone. A name of trimmed length 0, 1
    or 101 is rejected with the message of its check whatever the other
    inputs are, and one of trimmed length 2 or 100 is accepted when
    platform, goal and tone are allowed ones. *)
Theorem validate_inputs_order brand_name platform goal tone :
  let n := String.length (strip brand_name) in
  validate_inputs brand_name platform goal tone
  = match Spec.first_failure
            (Spec.checks PROFANITY_WORDS brand_name platform goal tone) with
    | Some message => (false, Some message)
    | None => (true, None)
    end
  /\ (n = 0%nat ->
      validate_inputs brand_name platform goal tone
      = (false, Some "Brand name is required"))
  /\ (n = 1%nat ->
      validate_inputs brand_name platform goal tone
      = (false, Some "Brand name must be at least 2 characters"))
  /\ (n = 101%nat ->
      validate_inputs brand_name platform goal tone
      = (false, Some "Brand name must be less than 100 characters"))
  /\ (n = 2%nat \/ n = 100%nat ->
      mem platform ALLOWED_PLATFORMS = true ->
      mem goal ALLOWED_GOALS = true ->
      mem tone ALLOWED_TONES = true ->
      validate_inputs brand_name platform goal tone = (true, None)).
Proof.
  intros n. split; [apply validate_inputs_refines|].
  unfold validate_inputs. cbv zeta. rewrite required_test, eqb_empty_length.
  fold n. repeat split.
  - intros ->. reflexivity.
  - intros ->. reflexivity.
  - intros ->. reflexivity.
  - intros Hn Hplatform Hgoal Htone. rewrite Hplatform, Hgoal, Htone.
    destruct Hn as [-> | ->]; reflexivity.
Qed.

End Validation.

(** [validate_inputs_order] at names of trimmed length 0, 1, 101, 2 and
    100. *)
Lemma validate_inputs_order_witness :
  LLMService.validate_inputs "   " "Snapchat" "Awareness" "Friendly"
  = (false, Some "Brand name is required")
  /\ LLMService.validate_inputs " x " "Snapchat" "Awareness" "Friendly"
     = (false, Some "Brand name must be at least 2 characters")
  /\ LLMService.validate_inputs (letters 101) "Snapchat" "Awareness" "Friendly"
     = (false, Some "Brand name must be less than 100 characters")
  /\ LLMService.validate_inputs " ab " "TikTok" "Conversions" "Playful" = (true, None)
  /\ LLMService.validate_inputs (letters 100) "UGC" "Content Assets" "Professional"
     = (true, None).
Proof.
  split; [|split; [|split; [|split]]].
  - apply (validate_inputs_order "   " "Snapchat" "Awareness" "Friendly").
    reflexivity.
  - apply (validate_inputs_order " x " "Snapchat" "Awareness" "Friendly").
    reflexivity.
  - apply (validate_inputs_order (letters 101) "Snapchat" "Awareness" "Friendly").
    reflexivity.
  - apply (validate_inputs_order " ab " "TikTok" "Conversions" "Playful");
      [left|..]; reflexivity.
  - apply (validate_inputs_order (letters 100) "UGC" "Content Assets" "Professional");
      [right|..]; reflexivity.
Defined.

Section Allowlists.

Import Py LLMService.

Implicit Types (brand_name platform goal tone : string).

Lemma mem_true (x : string) (l : list string) : mem x l = true <-> x ∈ l.
Proof.
  unfold mem. rewrite existsb_exists, list_elem_of_In. split.
  - intros (y & Hin & Heq). apply String.eqb_eq in Heq. now subst.
  - intros Hin. exists x. split; [exact Hin | apply String.eqb_refl].
Qed.

(** C10. The shipped set of profanity terms is empty: the test of the
    profanity branch is false for every brand name, and [validate_inputs]
    never returns the message of that branch. *)
Theorem profanity_branch_unreachable brand_name platform goal tone :
  existsb (fun word => contains word (lower (strip brand_name))) PROFANITY_WORDS
  = false
  /\ snd (validate_inputs brand_name platform goal tone)
     <> Some "Brand name contains inappropriate content".
Proof.
  split; [reflexivity|].
  unfold validate_inputs. cbv zeta.
  destruct (_ || _); [discriminate|].
  destruct (_ <? 2); [discriminate|].
  destruct (100 <? _); [discriminate|].
  unfold PROFANITY_WORDS. cbn [existsb].
  destruct (negb (mem platform _)); [discriminate|].
  destruct (negb (mem goal _)); [discriminate|].
  destruct (negb (mem tone _)); discriminate.
Qed.

(** A refusal always carries a message. *)
Lemma validate_inputs_message brand_name platform goal tone :
  fst (validate_inputs brand_name platform goal tone) = false ->
  exists message,
    validate_inputs brand_name platform goal tone = (false, Some message).
Proof.
  unfold validate_inputs. cbv zeta.
  repeat match goal with
         | |- context [if ?b then _ else _] => destruct b
         end; simpl; intros Hfst; try discriminate; eexists; reflexivity.
Qed.

End Allowlists.

(** ** The view and the allowlists *)

Section ViewValidation.

Import Py LLMService.

Variable json_loads : string -> result json.
Variable create : chat_request -> result completion.
Variable OPENAI_API_KEY : string.

Implicit Types (brand_name platform goal tone : string).

Lemma init_key : OPENAI_API_KEY <> "" -> init OPENAI_API_KEY = Return tt.
Proof.
  intros Hkey. unfold init.
  destruct (String.eqb_spec OPENAI_API_KEY ""); [contradiction | reflexivity].
Qed.

(** A request that passes the rate limit and whose body parses is answered
    by [handle]. *)
Lemma view_reaches_handle rate_limiter request now later data :
  views.method request = "POST" ->
  fst (RateLimiter.is_allowed rate_limiter (views.get_client_ip request) now) = true ->
  json_loads (views.body request) = Return data ->
  views.generate_brief json_loads create OPENAI_API_KEY rate_limiter request now later
  = views.handle json_loads create OPENAI_API_KEY
      (snd (RateLimiter.is_allowed rate_limiter (views.get_client_ip request) now))
      (views.get_client_ip request) later data.
Proof.
  intros Hpost Hallowed Hbody. unfold views.generate_brief.
  rewrite Hpost. cbv zeta.
  destruct (RateLimiter.is_allowed _ _ now) as [allowed rate_limiter1].
  simpl in Hallowed. subst allowed. simpl. now rewrite Hbody.
Qed.

(** With the four fields read and the service built, a refusal of
    [validate_inputs] is answered with status 400 and its message. *)
Lemma handle_refusal rate_limiter client_ip later data
    brand_name platform goal tone message :
  views.field data "brand_name" = Return brand_name ->
  views.field data "platform" = Return platform ->
  views.field data "goal" = Return goal ->
  views.field data "tone" = Return tone ->
  OPENAI_API_KEY <> "" ->
  validate_inputs brand_name platform goal tone = (false, Some message) ->
  views.handle json_loads create OPENAI_API_KEY rate_limiter client_ip later data
  = (views.Responds {| views.status := 400;
                       views.content := views.ErrorPayload message |},
     rate_limiter).
Proof.
  intros Hbrand Hplatform Hgoal Htone Hkey Hrefused. unfold views.handle.
  rewrite Hbrand, Hplatform, Hgoal, Htone. simpl.
  rewrite (init_key Hkey). simpl. now rewrite Hrefused.
Qed.

(** C7, as amended. Membership of an allowlist is exact equality with one
    of its three values. A platform, a goal or a tone outside its
    allowlist makes [validate_inputs] return invalid, whatever the other
    inputs are. When the brand name passes its checks (a trimmed length
    from 2 to 100), the message is that of the first of platform, goal and
    tone that is outside its allowlist, and names the field and its
    comma-joined allowlist. And the view, for a POST within the rate limit
    whose body parses into four string fields, with an API key that is
    not empty, answers a refusal of [validate_inputs] with status 400 and
    the message of the refusal. *)
Theorem allowlist_rejection brand_name platform goal tone :
  ((mem platform ALLOWED_PLATFORMS = true <->
    platform = "Instagram" \/ platform = "TikTok" \/ platform = "UGC")
   /\ (mem goal ALLOWED_GOALS = true <->
       goal = "Awareness" \/ goal = "Conversions" \/ goal = "Content Assets")
   /\ (mem tone ALLOWED_TONES = true <->
       tone = "Professional" \/ tone = "Friendly" \/ tone = "Playful"))
  /\ (mem platform ALLOWED_PLATFORMS = false
      \/ mem goal ALLOWED_GOALS = false
      \/ mem tone ALLOWED_TONES = false ->
      fst (validate_inputs brand_name platform goal tone) = false)
  /\ ((2 <= String.length (strip brand_name) <= 100)%nat ->
      (mem platform ALLOWED_PLATFORMS = false ->
       validate_inputs brand_name platform goal tone
       = (false, Some "Platform must be one of: Instagram, TikTok, UGC"))
      /\ (mem platform ALLOWED_PLATFORMS = true ->
          mem goal ALLOWED_GOALS = false ->
          validate_inputs brand_name platform goal tone
          = (false, Some "Goal must be one of: Awareness, Conversions, Content Assets"))
      /\ (mem platform ALLOWED_PLATFORMS = true ->
          mem goal ALLOWED_GOALS = true ->
          mem tone ALLOWED_TONES = false ->
          validate_inputs brand_name platform goal tone
          = (false, Some "Tone must be one of: Professional, Friendly, Playful")))
  /\ (forall rate_limiter request now later data,
      views.method request = "POST" ->
      fst (RateLimiter.is_allowed rate_limiter (views.get_client_ip request) now)
      = true ->
      json_loads (views.body request) = Return data ->
      views.field data "brand_name" = Return brand_name ->
      views.field data "platform" = Return platform ->
      views.field data "goal" = Return goal ->
      views.field data "tone" = Return tone ->
      OPENAI_API_KEY <> "" ->
      fst (validate_inputs brand_name platform goal tone) = false ->
      exists message,
        validate_inputs brand_name platform goal tone = (false, Some message)
        /\ fst (views.generate_brief json_loads create OPENAI_API_KEY
                  rate_limiter request now later)
           = views.Responds {| views.status := 400;
                               views.content := views.ErrorPayload message |}).
Proof.
  split; [|split; [|split]].
  - repeat split; rewrite mem_true; unfold ALLOWED_PLATFORMS, ALLOWED_GOALS,
      ALLOWED_TONES; rewrite !elem_of_cons, elem_of_nil; tauto.
  - intros Houtside. unfold validate_inputs. cbv zeta.
    destruct (_ || _); [reflexivity|].
    destruct (_ <? 2); [reflexivity|].
    destruct (100 <? _); [reflexivity|].
    unfold PROFANITY_WORDS. cbn [existsb].
    destruct (mem platform ALLOWED_PLATFORMS); [|reflexivity].
    destruct (mem goal ALLOWED_GOALS); [|reflexivity].
    destruct (mem tone ALLOWED_TONES); [|reflexivity].
    destruct Houtside as [?|[?|?]]; discriminate.
  - intros Hlength.
    assert (String.eqb brand_name "" || String.eqb (strip brand_name) "" = false)
      as Hrequired.
    { rewrite required_test, eqb_empty_length. apply Nat.eqb_neq. lia. }
    assert ((Z.of_nat (String.length (strip brand_name)) <? 2) = false) as Hmin
      by (apply Z.ltb_ge; lia).
    assert ((100 <? Z.of_nat (String.length (strip brand_name))) = false) as Hmax
      by (apply Z.ltb_ge; lia).
    split; [|split].
    + intros Hplatform. unfold validate_inputs. cbv zeta.
      rewrite Hrequired, Hmin, Hmax, Hplatform. reflexivity.
    + intros Hplatform Hgoal. unfold validate_inputs. cbv zeta.
      rewrite Hrequired, Hmin, Hmax, Hplatform, Hgoal. reflexivity.
    + intros Hplatform Hgoal Htone. unfold validate_inputs. cbv zeta.
      rewrite Hrequired, Hmin, Hmax, Hplatform, Hgoal, Htone. reflexivity.
  - intros rate_limiter request now later data Hpost Hallowed Hbody
      Hbrand Hplatform Hgoal Htone Hkey Hrefused.
    destruct (validate_inputs_message _ _ _ _ Hrefused) as [message Hmessage].
    exists message. split; [exact Hmessage|].
    rewrite (view_reaches_handle _ _ _ _ _ Hpost Hallowed Hbody).
    now rewrite (handle_refusal _ _ _ _ _ _ _ _ _
                   Hbrand Hplatform Hgoal Htone Hkey Hmessage).
Qed.

End ViewValidation.

(** C7 as stated fails: an empty brand name comes first, and the message
    says nothing of the platform that is outside its allowlist. *)
Lemma allowlist_message_counterexample :
  Py.mem "Snapchat" LLMService.ALLOWED_PLATFORMS = false
  /\ LLMService.validate_inputs "" "Snapchat" "Awareness" "Friendly"
     = (false, Some "Brand name is required")
  /\ LLMService.validate_inputs "" "Snapchat" "Awareness" "Friendly"
     <> (false, Some "Platform must be one of: Instagram, TikTok, UGC").
Proof. split; [reflexivity|]. split; [reflexivity|]. discriminate. Qed.

(** [allowlist_rejection] for the platforms Snapchat and instagram (in
    lower case): with an empty brand name, with the brand name Acme, and
    through the view. *)
Lemma allowlist_rejection_witness :
  fst (LLMService.validate_inputs "" "Snapchat" "Awareness" "Friendly") = false
  /\ (2 <= String.length (Py.strip "Acme") <= 100)%nat
  /\ LLMService.validate_inputs "Acme" "Snapchat" "Awareness" "Friendly"
     = (false, Some "Platform must be one of: Instagram, TikTok, UGC")
  /\ LLMService.validate_inputs "Acme" "instagram" "Awareness" "Friendly"
     = (false, Some "Platform must be one of: Instagram, TikTok, UGC")
  /\ exists message,
       LLMService.validate_inputs "Acme" "Snapchat" "Awareness" "Friendly"
       = (false, Some message)
       /\ fst (views.generate_brief loads_stub (provider_stub "good answer") "sk-test"
                 view_limiter (post "request for Snapchat") 0 1)
          = views.Responds {| views.status := 400;
                              views.content := views.ErrorPayload message |}.
Proof.
  assert (2 <= String.length (Py.strip "Acme") <= 100)%nat as Hlength
    by (vm_compute; split; lia).
  split; [|split; [exact Hlength|split; [|split]]].
  - destruct (allowlist_rejection loads_stub (provider_stub "good answer") "sk-test"
                "" "Snapchat" "Awareness" "Friendly") as (_ & Hinvalid & _).
    apply Hinvalid. left. reflexivity.
  - destruct (allowlist_rejection loads_stub (provider_stub "good answer") "sk-test"
                "Acme" "Snapchat" "Awareness" "Friendly") as (_ & _ & Hmessage & _).
    apply (Hmessage Hlength). reflexivity.
  - destruct (allowlist_rejection loads_stub (provider_stub "good answer") "sk-test"
                "Acme" "instagram" "Awareness" "Friendly") as (_ & _ & Hmessage & _).
    apply (Hmessage Hlength). reflexivity.
  - destruct (allowlist_rejection loads_stub (provider_stub "good answer") "sk-test"
                "Acme" "Snapchat" "Awareness" "Friendly") as (_ & _ & _ & Hview).
    apply Hview with (data := request_data "Snapchat"); try reflexivity.
    discriminate.
Defined.

(** ** The generation of the brief *)

Section Generation.

Import Py LLMService.

Implicit Types (brand_name platform goal tone : string) (parsed v : json).

Lemma bind_Return {A B : Type} (m : result A) (k : A -> result B) (b : B) :
  bind m k = Return b <-> exists a, m = Return a /\ k a = Return b.
Proof.
  destruct m as [a|e]; simpl; split.
  - intros Hk. now exists a.
  - intros (a' & Ha & Hk). now injection Ha as ->.
  - discriminate.
  - intros (a' & Ha & _). discriminate.
Qed.

Lemma isinstance_Exception (e : exn) : isinstance e Exception_ = true.
Proof.
  unfold isinstance. apply bool_decide_eq_true.
  destruct e as [c text]. simpl. induction c; simpl; try set_solver.
Qed.

Lemma subscript_Return parsed key v :
  subscript parsed key = Return v
  <-> exists d, parsed = JDict d /\ d !! key = Some v.
Proof.
  destruct parsed; unfold subscript, raise; split;
    try discriminate; try (intros (d' & Hd & _); discriminate).
  - destruct (d !! key) as [x|] eqn:Hx; [|discriminate].
    intros Hv. injection Hv as ->. now exists d.
  - intros (d' & Hd & Hv). injection Hd as <-. now rewrite Hv.
Qed.

Lemma three_items_len v : Spec.three_items v = true <-> list_len v = Some 3.
Proof.
  destruct v; simpl; split; try discriminate.
  - intros Hlen. apply Nat.eqb_eq in Hlen. now rewrite Hlen.
  - intros Hlen. apply Nat.eqb_eq. injection Hlen. lia.
Qed.

Lemma check_array_Return parsed key message :
  check_array parsed key message = Return tt
  <-> exists v, subscript parsed key = Return v /\ Spec.three_items v = true.
Proof.
  unfold check_array. split.
  - intros Hcheck. apply bind_Return in Hcheck as (v & Hv & Hlen).
    exists v. split; [exact Hv|]. apply three_items_len.
    destruct (list_len v) as [n|]; [|discriminate].
    destruct (n =? 3) eqn:Hn; [|discriminate].
    apply Z.eqb_eq in Hn. now subst n.
  - intros (v & Hv & Hlen). rewrite Hv. simpl.
    apply three_items_len in Hlen. now rewrite Hlen.
Qed.

(** A sequence of another length, or no sequence, is refused by name. *)
Lemma check_array_refuses parsed key message v :
  subscript parsed key = Return v ->
  Spec.three_items v = false ->
  check_array parsed key message = raise ValueError message.
Proof.
  intros Hv Hlen. unfold check_array. rewrite Hv. simpl.
  destruct (list_len v) as [n|] eqn:Hn; [|reflexivity].
  destruct (n =? 3) eqn:Hthree; [|reflexivity].
  apply Z.eqb_eq in Hthree. subst n.
  apply three_items_len in Hn. congruence.
Qed.

Lemma check_keys_dict (d : gmap string json) :
  check_keys (JDict d)
  = match d !! "brief", d !! "angles", d !! "criteria" with
    | Some _, Some _, Some _ => Return tt
    | _, _, _ => raise ValueError "Invalid response structure from LLM"
    end.
Proof.
  unfold check_keys, contains_key. cbn [bind].
  destruct (d !! "brief"); [|reflexivity].
  destruct (d !! "angles"); [|reflexivity].
  destruct (d !! "criteria"); reflexivity.
Qed.

(** An [int] converts to a double exactly when its magnitude is below
    [2 ^ 1024 - 2 ^ 970]. *)
Lemma int_to_float_Return (n : Z) :
  (exists x, int_to_float n = Return x) <-> Z.abs n < Double.int_overflow.
Proof.
  assert (Double.nearest (inject_Z (Double.int_overflow - 1)) < Double.huge)%Q
    as Hbelow by (vm_compute; reflexivity).
  assert (Double.huge <= Double.nearest (inject_Z Double.int_overflow))%Q
    as Hat by (vm_compute; discriminate).
  assert (- Double.huge < Double.nearest (inject_Z (- (Double.int_overflow - 1))))%Q
    as Habove by (vm_compute; reflexivity).
  assert (Double.nearest (inject_Z (- Double.int_overflow)) <= - Double.huge)%Q
    as Hunder by (vm_compute; discriminate).
  assert (forall a b, a <= b ->
            (Double.nearest (inject_Z a) <= Double.nearest (inject_Z b))%Q) as Hmono.
  { intros a b Hab. apply nearest_mono. now rewrite <- Zle_Qle. }
  unfold int_to_float. cbv zeta.
  destruct (Z_lt_le_dec (Z.abs n) Double.int_overflow) as [Hfits|Hlarge].
  - pose proof (Hmono n (Double.int_overflow - 1) ltac:(lia)) as Hhigh.
    pose proof (Hmono (- (Double.int_overflow - 1)) n ltac:(lia)) as Hlow.
    assert (Qle_bool Double.huge (Double.nearest (inject_Z n)) = false) as ->
      by (apply Qle_bool_false; lra).
    assert (Qle_bool (Double.nearest (inject_Z n)) (- Double.huge) = false) as ->
      by (apply Qle_bool_false; lra).
    simpl. split; [intros _; exact Hfits | intros _; now eexists].
  - assert (Qle_bool Double.huge (Double.nearest (inject_Z n))
            || Qle_bool (Double.nearest (inject_Z n)) (- Double.huge) = true) as ->.
    { apply orb_true_iff. rewrite !Qle_bool_iff.
      destruct (Z_le_gt_dec Double.int_overflow n) as [Hpos|Hneg].
      - left. pose proof (Hmono _ _ Hpos). lra.
      - right. pose proof (Hmono n (- Double.int_overflow) ltac:(lia)). lra. }
    split; [intros [x Hx]; discriminate | lia].
Qed.

(** The expression of the cost raises for a token count that converts to
    no double, and for nothing else. *)
Lemma estimated_cost_usd_cases (tel : telemetry) :
  if (Z.abs (tokens_prompt tel) <? Double.int_overflow)
     && (Z.abs (tokens_completion tel) <? Double.int_overflow)
  then estimated_cost_usd tel = Return tt
  else estimated_cost_usd tel
       = raise OverflowError "int too large to convert to float".
Proof.
  assert (forall n, if Z.abs n <? Double.int_overflow
                    then exists x, int_to_float n = Return x
                    else int_to_float n
                         = raise OverflowError "int too large to convert to float")
    as Hconvert.
  { intros n. destruct (Z.ltb_spec (Z.abs n) Double.int_overflow) as [Hfits|Hlarge].
    - now apply int_to_float_Return.
    - assert (~ exists x, int_to_float n = Return x) as Hnone.
      { rewrite int_to_float_Return. lia. }
      unfold int_to_float in *. cbv zeta in *.
      destruct (_ || _); [reflexivity|]. exfalso. apply Hnone. now eexists. }
  unfold estimated_cost_usd.
  pose proof (Hconvert (tokens_prompt tel)) as Hprompt.
  pose proof (Hconvert (tokens_completion tel)) as Hcompletion.
  destruct (Z.abs (tokens_prompt tel) <? _).
  - destruct Hprompt as [x ->]. cbn [bind andb].
    destruct (Z.abs (tokens_completion tel) <? _).
    + now destruct Hcompletion as [y ->].
    + now rewrite Hcompletion.
  - now rewrite Hprompt.
Qed.

Lemma estimated_cost_usd_Return (tel : telemetry) :
  estimated_cost_usd tel = Return tt
  <-> Z.abs (tokens_prompt tel) < Double.int_overflow
      /\ Z.abs (tokens_completion tel) < Double.int_overflow.
Proof.
  pose proof (estimated_cost_usd_cases tel) as Hcases.
  destruct (Z.ltb_spec (Z.abs (tokens_prompt tel)) Double.int_overflow);
    destruct (Z.ltb_spec (Z.abs (tokens_completion tel)) Double.int_overflow);
    simpl in Hcases; rewrite Hcases; unfold raise;
    split; try discriminate; try lia; try (intros _; split; assumption).
Qed.

Variable json_loads : string -> result json.
Variable create : chat_request -> result completion.

(** [generate_brief] returns exactly when the body of its [try] does. *)
Lemma generate_brief_Return brand_name platform goal tone r :
  generate_brief json_loads create brand_name platform goal tone = Return r
  <-> attempt json_loads create brand_name platform goal tone = Return r.
Proof.
  unfold generate_brief. destruct (attempt _ _ _ _ _ _) as [r'|e].
  - reflexivity.
  - destruct (isinstance e JSONDecodeError); [split; discriminate|].
    destruct (isinstance e Exception_); split; discriminate.
Qed.

(** What the two [except] clauses make of an exception of the body. *)
Lemma generate_brief_Raise brand_name platform goal tone e :
  attempt json_loads create brand_name platform goal tone = Raise e ->
  generate_brief json_loads create brand_name platform goal tone
  = if isinstance e JSONDecodeError
    then raise ValueError ("Failed to parse LLM response as JSON: " +:+ str e)
    else raise RuntimeError ("LLM service error: " +:+ str e).
Proof.
  intros Hraise. unfold generate_brief. rewrite Hraise.
  now rewrite isinstance_Exception.
Qed.

(** The body of the [try] once the answer is parsed. *)
Lemma attempt_parsed brand_name platform goal tone response content parsed :
  create (request_for brand_name platform goal tone) = Return response ->
  first_content response = Return content ->
  loads json_loads content = Return parsed ->
  attempt json_loads create brand_name platform goal tone
  = (_ <- check_keys parsed ;;
     _ <- check_array parsed "angles" "Angles must be an array of exactly 3 items" ;;
     _ <- check_array parsed "criteria" "Criteria must be an array of exactly 3 items" ;;
     tel <- read_usage response ;;
     b <- subscript parsed "brief" ;;
     a <- subscript parsed "angles" ;;
     c <- subscript parsed "criteria" ;;
     _ <- estimated_cost_usd tel ;;
     Return {| brief_text := b; angles := a; criteria := c; telemetry_of := tel |}).
Proof.
  intros Hcreate Hcontent Hparsed. unfold attempt.
  rewrite Hcreate. cbn [bind]. rewrite Hcontent. cbn [bind].
  rewrite Hparsed. reflexivity.
Qed.

End Generation.

Section GenerationShape.

Import Py LLMService.

Variable json_loads : string -> result json.
Variable create : chat_request -> result completion.

Implicit Types (brand_name platform goal tone : string) (parsed v : json).

(** What a returned brief tells about the parsed answer and the usage. *)
Lemma attempt_Return_inv brand_name platform goal tone response content parsed r :
  create (request_for brand_name platform goal tone) = Return response ->
  first_content response = Return content ->
  loads json_loads content = Return parsed ->
  attempt json_loads create brand_name platform goal tone = Return r ->
  exists d u,
    parsed = JDict d
    /\ d !! "brief" = Some (brief_text r)
    /\ d !! "angles" = Some (angles r)
    /\ d !! "criteria" = Some (criteria r)
    /\ Spec.three_items (angles r) = true
    /\ Spec.three_items (criteria r) = true
    /\ usage_report response = Some u
    /\ telemetry_of r = {| tokens_total := total_tokens u;
                           tokens_prompt := prompt_tokens u;
                           tokens_completion := completion_tokens u |}
    /\ Z.abs (prompt_tokens u) < Double.int_overflow
    /\ Z.abs (completion_tokens u) < Double.int_overflow.
Proof.
  intros Hcreate Hcontent Hparsed Hreturn.
  rewrite (attempt_parsed _ _ _ _ _ _ _ _ _ Hcreate Hcontent Hparsed) in Hreturn.
  apply bind_Return in Hreturn as ([] & _ & Hreturn).
  apply bind_Return in Hreturn as ([] & Hangles & Hreturn).
  apply bind_Return in Hreturn as ([] & Hcriteria & Hreturn).
  apply bind_Return in Hreturn as (tel & Husage & Hreturn).
  apply bind_Return in Hreturn as (b & Hb & Hreturn).
  apply bind_Return in Hreturn as (a & Ha & Hreturn).
  apply bind_Return in Hreturn as (c & Hc & Hreturn).
  apply bind_Return in Hreturn as ([] & Hcost & Hreturn).
  apply estimated_cost_usd_Return in Hcost as [Hprompt Hcompletion].
  injection Hreturn as <-. simpl.
  apply check_array_Return in Hangles as (a' & Ha' & Hlen_a).
  apply check_array_Return in Hcriteria as (c' & Hc' & Hlen_c).
  rewrite Ha in Ha'. injection Ha' as <-.
  rewrite Hc in Hc'. injection Hc' as <-.
  apply subscript_Return in Hb as (d & -> & Hb).
  apply subscript_Return in Ha as (d1 & Hd1 & Ha). injection Hd1 as <-.
  apply subscript_Return in Hc as (d2 & Hd2 & Hc). injection Hd2 as <-.
  unfold read_usage in Husage.
  destruct (usage_report response) as [u|]; [|discriminate].
  injection Husage as <-. simpl in Hprompt, Hcompletion.
  exists d, u. repeat split; assumption.
Qed.

(** An object of the right shape, with a usage report whose token counts
    convert to doubles, gives a brief. *)
Lemma attempt_shaped brand_name platform goal tone response content d b a c u :
  create (request_for brand_name platform goal tone) = Return response ->
  first_content response = Return content ->
  loads json_loads content = Return (JDict d) ->
  d !! "brief" = Some b ->
  d !! "angles" = Some a ->
  d !! "criteria" = Some c ->
  Spec.three_items a = true ->
  Spec.three_items c = true ->
  usage_report response = Some u ->
  Z.abs (prompt_tokens u) < Double.int_overflow ->
  Z.abs (completion_tokens u) < Double.int_overflow ->
  attempt json_loads create brand_name platform goal tone
  = Return {| brief_text := b; angles := a; criteria := c;
              telemetry_of := {| tokens_total := total_tokens u;
                                 tokens_prompt := prompt_tokens u;
                                 tokens_completion := completion_tokens u |} |}.
Proof.
  intros Hcreate Hcontent Hparsed Hb Ha Hc Hlen_a Hlen_c Hu Hprompt Hcompletion.
  rewrite (attempt_parsed _ _ _ _ _ _ _ _ _ Hcreate Hcontent Hparsed).
  rewrite check_keys_dict, Hb, Ha, Hc. cbn [bind].
  assert (forall key message v, d !! key = Some v -> Spec.three_items v = true ->
            check_array (JDict d) key message = Return tt) as Harray.
  { intros key message v Hv Hlen. apply check_array_Return. exists v.
    split; [|exact Hlen]. apply subscript_Return. now exists d. }
  rewrite (Harray _ _ a Ha Hlen_a), (Harray _ _ c Hc Hlen_c). cbn [bind].
  unfold read_usage. rewrite Hu. cbn [bind].
  unfold subscript. rewrite Hb, Ha, Hc. cbn [bind].
  assert (estimated_cost_usd
            {| tokens_total := total_tokens u;
               tokens_prompt := prompt_tokens u;
               tokens_completion := completion_tokens u |} = Return tt) as ->.
  { apply estimated_cost_usd_Return. now split. }
  reflexivity.
Qed.

(** C4, as amended. Once the provider's answer is parsed, [generate_brief]
    returns a brief exactly when the parsed value is an object with the
    keys [brief], [angles] and [criteria] whose angles and criteria are
    sequences of exactly 3 items, of whatever kind, and the usage report
    is there with a prompt and a completion token count that convert to
    doubles (their magnitude is below [2 ^ 1024 - 2 ^ 970]); the brief
    then carries the three values as they are. A
    missing key, or angles or criteria that are no sequence of exactly 3
    items (2 or 4 angles, for instance), make it raise an exception whose
    text names the violation. *)
Theorem generate_brief_shape brand_name platform goal tone response content parsed :
  create (request_for brand_name platform goal tone) = Return response ->
  first_content response = Return content ->
  loads json_loads content = Return parsed ->
  ((exists r, generate_brief json_loads create brand_name platform goal tone
              = Return r)
   <-> Spec.shaped Spec.three_items parsed = true
       /\ exists u, usage_report response = Some u
                    /\ Z.abs (prompt_tokens u) < Double.int_overflow
                    /\ Z.abs (completion_tokens u) < Double.int_overflow)
  /\ (forall r,
      generate_brief json_loads create brand_name platform goal tone = Return r ->
      subscript parsed "brief" = Return (brief_text r)
      /\ subscript parsed "angles" = Return (angles r)
      /\ subscript parsed "criteria" = Return (criteria r))
  /\ (forall d,
      parsed = JDict d ->
      d !! "brief" = None \/ d !! "angles" = None \/ d !! "criteria" = None ->
      exists e,
        generate_brief json_loads create brand_name platform goal tone = Raise e
        /\ contains "Invalid response structure from LLM" (str e) = true)
  /\ (forall d a,
      parsed = JDict d ->
      is_Some (d !! "brief") -> d !! "angles" = Some a -> is_Some (d !! "criteria") ->
      Spec.three_items a = false ->
      exists e,
        generate_brief json_loads create brand_name platform goal tone = Raise e
        /\ contains "Angles must be an array of exactly 3 items" (str e) = true)
  /\ (forall d a c,
      parsed = JDict d ->
      is_Some (d !! "brief") -> d !! "angles" = Some a -> d !! "criteria" = Some c ->
      Spec.three_items a = true ->
      Spec.three_items c = false ->
      exists e,
        generate_brief json_loads create brand_name platform goal tone = Raise e
        /\ contains "Criteria must be an array of exactly 3 items" (str e) = true).
Proof.
  intros Hcreate Hcontent Hparsed.
  pose proof (attempt_parsed json_loads create _ _ _ _ _ _ _
                Hcreate Hcontent Hparsed) as Hattempt.
  split; [split|split; [|split; [|split]]].
  - intros [r Hreturn]. apply generate_brief_Return in Hreturn.
    destruct (attempt_Return_inv _ _ _ _ _ _ _ _ Hcreate Hcontent Hparsed Hreturn)
      as (d & u & -> & Hb & Ha & Hc & Hlen_a & Hlen_c & Hu & _ & Hprompt & Hcompletion).
    split; [|now exists u]. simpl. now rewrite Hb, Ha, Hc, Hlen_a, Hlen_c.
  - intros [Hshape (u & Hu & Hprompt & Hcompletion)].
    destruct parsed; try discriminate. simpl in Hshape.
    destruct (d !! "brief") as [b|] eqn:Hb; [|discriminate].
    destruct (d !! "angles") as [a|] eqn:Ha; [|discriminate].
    destruct (d !! "criteria") as [c|] eqn:Hc; [|discriminate].
    apply andb_true_iff in Hshape as [Hlen_a Hlen_c].
    eexists. apply generate_brief_Return.
    exact (attempt_shaped _ _ _ _ _ _ _ _ _ _ _
             Hcreate Hcontent Hparsed Hb Ha Hc Hlen_a Hlen_c Hu Hprompt Hcompletion).
  - intros r Hreturn. apply generate_brief_Return in Hreturn.
    destruct (attempt_Return_inv _ _ _ _ _ _ _ _ Hcreate Hcontent Hparsed Hreturn)
      as (d & u & -> & Hb & Ha & Hc & _).
    unfold subscript. now rewrite Hb, Ha, Hc.
  - intros d -> Hmissing.
    assert (check_keys (JDict d)
            = raise ValueError "Invalid response structure from LLM") as Hkeys.
    { rewrite check_keys_dict.
      destruct (d !! "brief"), (d !! "angles"), (d !! "criteria");
        try reflexivity.
      destruct Hmissing as [?|[?|?]]; discriminate. }
    rewrite Hkeys in Hattempt. cbn [bind raise] in Hattempt.
    rewrite (generate_brief_Raise json_loads create _ _ _ _ _ Hattempt).
    eexists. split; reflexivity.
  - intros d a -> [b Hb] Ha [c Hc] Hlen.
    rewrite check_keys_dict, Hb, Ha, Hc in Hattempt. cbn [bind] in Hattempt.
    rewrite (check_array_refuses (JDict d) "angles" _ a) in Hattempt;
      [|unfold subscript; now rewrite Ha|exact Hlen].
    cbn [bind raise] in Hattempt.
    rewrite (generate_brief_Raise json_loads create _ _ _ _ _ Hattempt).
    eexists. split; reflexivity.
  - intros d a c -> [b Hb] Ha Hc Hlen_a Hlen_c.
    rewrite check_keys_dict, Hb, Ha, Hc in Hattempt. cbn [bind] in Hattempt.
    assert (check_array (JDict d) "angles" "Angles must be an array of exactly 3 items"
            = Return tt) as Hangles.
    { apply check_array_Return. exists a. split; [|exact Hlen_a].
      unfold subscript. now rewrite Ha. }
    rewrite Hangles in Hattempt. cbn [bind] in Hattempt.
    rewrite (check_array_refuses (JDict d) "criteria" _ c) in Hattempt;
      [|unfold subscript; now rewrite Hc|exact Hlen_c].
    cbn [bind raise] in Hattempt.
    rewrite (generate_brief_Raise json_loads create _ _ _ _ _ Hattempt).
    eexists. split; reflexivity.
Qed.

End GenerationShape.

(** C4 as stated fails: three numbers are no string-like items, and the
    brief is returned with them all the same. *)
Lemma string_items_counterexample :
  Spec.shaped Spec.three_strings numeric_angles = false
  /\ LLMService.generate_brief loads_stub (provider_stub "numeric angles")
       "Acme" "Instagram" "Awareness" "Friendly"
     = Py.Return
         {| LLMService.brief_text := Py.JStr "A short brief.";
            LLMService.angles := Py.JList [Py.JInt 1; Py.JInt 2; Py.JInt 3];
            LLMService.criteria :=
              Py.JList [Py.JStr "reach"; Py.JStr "fit"; Py.JStr "voice"];
            LLMService.telemetry_of :=
              {| LLMService.tokens_total := 300;
                 LLMService.tokens_prompt := 100;
                 LLMService.tokens_completion := 200 |} |}.
Proof. split; vm_compute; reflexivity. Qed.

(** [generate_brief_shape] for answers with two, four and three angles. *)
Lemma generate_brief_shape_witness :
  (exists e,
     LLMService.generate_brief loads_stub (provider_stub "two angles")
       "Acme" "Instagram" "Awareness" "Friendly" = Py.Raise e
     /\ Py.contains "Angles must be an array of exactly 3 items" (Py.str e) = true)
  /\ (exists e,
        LLMService.generate_brief loads_stub (provider_stub "four angles")
          "Acme" "Instagram" "Awareness" "Friendly" = Py.Raise e
        /\ Py.contains "Angles must be an array of exactly 3 items" (Py.str e) = true)
  /\ (exists r,
        LLMService.generate_brief loads_stub (provider_stub "good answer")
          "Acme" "Instagram" "Awareness" "Friendly" = Py.Return r).
Proof.
  split; [|split].
  - destruct (generate_brief_shape loads_stub (provider_stub "two angles")
                "Acme" "Instagram" "Awareness" "Friendly" _ _ two_angles
                eq_refl eq_refl eq_refl) as (_ & _ & _ & Hangles & _).
    eapply Hangles; [reflexivity | eexists; reflexivity | reflexivity
                    | eexists; reflexivity | reflexivity].
  - destruct (generate_brief_shape loads_stub (provider_stub "four angles")
                "Acme" "Instagram" "Awareness" "Friendly" _ _ four_angles
                eq_refl eq_refl eq_refl) as (_ & _ & _ & Hangles & _).
    eapply Hangles; [reflexivity | eexists; reflexivity | reflexivity
                    | eexists; reflexivity | reflexivity].
  - destruct (generate_brief_shape loads_stub (provider_stub "good answer")
                "Acme" "Instagram" "Awareness" "Friendly" _ _ good_answer
                eq_refl eq_refl eq_refl) as ([_ Hgood] & _).
    apply Hgood. split; [reflexivity|].
    eexists. split; [reflexivity|]. split; vm_compute; reflexivity.
Defined.

(** A good answer whose usage report counts [2 ^ 1024] prompt tokens: the
    expression of the cost raises, and the [try] makes a service error of
    it. *)
Example huge_usage_failure :
  LLMService.generate_brief loads_stub provider_huge
    "Acme" "Instagram" "Awareness" "Friendly"
  = Py.raise Py.RuntimeError
      "LLM service error: int too large to convert to float".
Proof. vm_compute. reflexivity. Qed.

(** ** The statuses of the view *)

Section ViewStatuses.

Import Py LLMService.

Variable json_loads : string -> result json.
Variable create : chat_request -> result completion.

(** The answer of the view to what the body of the [try] of
    [LLMService.generate_brief] does. An exception of the body reaches the
    view as a [ValueError] only when it is a [JSONDecodeError]; every other
    one, the [ValueError] of a shape check included, reaches it as a
    [RuntimeError]. *)
Lemma respond_status rate_limiter client_ip later brand_name platform goal tone :
  views.respond json_loads create rate_limiter client_ip later
    brand_name platform goal tone
  = match attempt json_loads create brand_name platform goal tone with
    | Return r =>
        (views.Responds
           {| views.status := 200;
              views.content :=
                views.BriefPayload r
                  (fst (RateLimiter.get_remaining rate_limiter client_ip later)) |},
         snd (RateLimiter.get_remaining rate_limiter client_ip later))
    | Raise e =>
        if isinstance e JSONDecodeError then
          (views.Responds
             {| views.status := 400;
                views.content :=
                  views.ErrorPayload
                    ("Validation error: "
                     +:+ ("Failed to parse LLM response as JSON: " +:+ str e)) |},
           rate_limiter)
        else
          (views.Responds
             {| views.status := 500;
                views.content :=
                  views.ErrorPayload
                    ("Service error: " +:+ ("LLM service error: " +:+ str e)) |},
           rate_limiter)
    end.
Proof.
  unfold views.respond, generate_brief.
  destruct (attempt _ _ _ _ _ _) as [r|e].
  - now destruct (RateLimiter.get_remaining rate_limiter client_ip later).
  - destruct (isinstance e JSONDecodeError); [reflexivity|].
    rewrite isinstance_Exception. reflexivity.
Qed.

End ViewStatuses.

(** C5, at the failing input. The provider answers a well-formed request
    with an object whose angles are two: the view answers 500 and a service
    error, not 400 and a validation error. Next to it, an answer that is no
    JSON (400, validation error) and a provider that cannot be reached
    (500, service error). *)
Theorem shape_failure_status :
  fst (views.generate_brief loads_stub (provider_stub "two angles") "sk-test"
         view_limiter (post "request") 0 1)
  = views.Responds
      {| views.status := 500;
         views.content :=
           views.ErrorPayload
             "Service error: LLM service error: Angles must be an array of exactly 3 items" |}
  /\ fst (views.generate_brief loads_stub (provider_stub "no JSON") "sk-test"
            view_limiter (post "request") 0 1)
     = views.Responds
         {| views.status := 400;
            views.content :=
              views.ErrorPayload
                "Validation error: Failed to parse LLM response as JSON: Expecting value: line 1 column 1 (char 0)" |}
  /\ fst (views.generate_brief loads_stub provider_down "sk-test"
            view_limiter (post "request") 0 1)
     = views.Responds
         {| views.status := 500;
            views.content :=
              views.ErrorPayload
                "Service error: LLM service error: Connection error." |}.
Proof. repeat split; vm_compute; reflexivity. Qed.

(** The same request with a good answer: status 200, the brief, and what
    is left of the five requests a minute. *)
Example good_answer_status :
  fst (views.generate_brief loads_stub (provider_stub "good answer") "sk-test"
         view_limiter (post "request") 0 1)
  = views.Responds
      {| views.status := 200;
         views.content :=
           views.BriefPayload
             {| LLMService.brief_text := Py.JStr "A short brief.";
                LLMService.angles :=
                  Py.JList [Py.JStr "one"; Py.JStr "two"; Py.JStr "three"];
                LLMService.criteria :=
                  Py.JList [Py.JStr "reach"; Py.JStr "fit"; Py.JStr "voice"];
                LLMService.telemetry_of :=
                  {| LLMService.tokens_total := 300;
                     LLMService.tokens_prompt := 100;
                     LLMService.tokens_completion := 200 |} |}
             4 |}.
Proof. vm_compute. reflexivity. Qed.

(** * Further properties of the code *)

(** ** The rate limiter over its histories *)

Section LimiterHistories.

Import RateLimiter History.

Context {K : Type} `{Countable K}.

Implicit Types (self : RateLimiter.t K) (ip : K) (now t : Q) (l ts : list Q).

(** Pruning at a later instant absorbs a pruning at an earlier one. *)
Lemma prune_prune window now later l :
  (now <= later)%Q ->
  prune window later (prune window now l) = prune window later l.
Proof.
  intros Hle. induction l as [|t l IH]; [reflexivity|]. simpl.
  destruct (in_window window now t) eqn:Hnow; simpl.
  - now rewrite IH.
  - rewrite IH.
    assert (in_window window later t = false) as ->; [|reflexivity].
    destruct (in_window window later t) eqn:Hlater; [|reflexivity].
    rewrite <- Hnow. symmetry.
    apply (in_window_earlier window now later t t); [exact Hle | lra | exact Hlater].
Qed.

Lemma prune_idempotent window now l :
  prune window now (prune window now l) = prune window now l.
Proof. apply prune_prune. lra. Qed.

(** The list of an identity after one call. *)
Lemma step_stored_eq self c ip :
  stored (step self c) ip
  = if bool_decide (call_ip c = ip)
    then prune (window_seconds self) (call_now c) (stored self ip) ++ grant self ip c
    else stored self ip.
Proof.
  destruct c as [ip0 now|ip0 now]; unfold step, call_ip, call_now, grant.
  - rewrite is_allowed_unfold. cbv zeta.
    destruct (bool_decide_reflect (ip0 = ip)) as [->|Hne];
      destruct (max_requests self <=? _); unfold stored at 1; simpl;
      rewrite ?getitem_insert, ?app_nil_r; try reflexivity;
      now rewrite getitem_insert_ne.
  - rewrite get_remaining_unfold. unfold stored at 1. simpl.
    destruct (bool_decide_reflect (ip0 = ip)) as [->|Hne].
    + now rewrite getitem_insert, app_nil_r.
    + now rewrite getitem_insert_ne.
Qed.

(** A call grants at most its own reading, and only with room left. *)
Lemma grant_cases self ip c :
  grant self ip c = []
  \/ (grant self ip c = [call_now c]
      /\ call_ip c = ip
      /\ len (prune (window_seconds self) (call_now c) (stored self ip))
         < max_requests self).
Proof.
  destruct c as [ip0 now|ip0 now]; unfold grant; [|now left].
  destruct (bool_decide_reflect (ip0 = ip)) as [->|Hne]; [|now left].
  simpl. destruct (fst (is_allowed self ip now)) eqn:Hgranted; [|now left].
  right. split; [reflexivity|]. split; [reflexivity|].
  now apply is_allowed_granted.
Qed.

Lemma grant_other self ip c : call_ip c <> ip -> grant self ip c = [].
Proof.
  intros Hne. destruct c as [ip0 now|ip0 now]; unfold grant; [|reflexivity].
  simpl in Hne. destruct (bool_decide_reflect (ip0 = ip)); [contradiction|].
  reflexivity.
Qed.

Lemma granted_snoc self ip cs c :
  granted self ip (cs ++ [c]) = granted self ip cs ++ grant (run self cs) ip c.
Proof.
  revert self. induction cs as [|c0 cs IH]; intros self; simpl.
  - now rewrite app_nil_r.
  - rewrite IH. now rewrite app_assoc.
Qed.

(** A granted reading is the reading of some call. *)
Lemma granted_readings self ip cs t :
  t ∈ granted self ip cs -> t ∈ map call_now cs.
Proof.
  induction cs as [|c cs IH] using rev_ind; [intros Hin; inversion Hin|].
  rewrite granted_snoc, map_app, !elem_of_app. simpl.
  intros [Hin|Hin]; [left; now apply IH|right].
  destruct (grant_cases (run self cs) ip c) as [Hnone|(Hone & _)];
    rewrite ?Hnone, ?Hone in Hin; [inversion Hin | exact Hin].
Qed.

Lemma nondecreasing_snoc ts t :
  nondecreasing (ts ++ [t]) ->
  nondecreasing ts /\ forall u, u ∈ ts -> (u <= t)%Q.
Proof.
  intros Hsorted. split.
  - clear -Hsorted. induction ts as [|u ts IH]; [exact I|].
    destruct ts as [|u2 ts]; [split; exact I|].
    destruct Hsorted as [Hle Hrest]. split; [exact Hle|]. apply IH, Hrest.
  - intros u Hu.
    apply (nondecreasing_le_last (ts ++ [t]) t Hsorted); [apply last_snoc|].
    apply elem_of_app. now left.
Qed.

(** From a fresh limiter and with a clock that never goes back, what is
    stored and what was granted agree on every window that ends at or after
    the last reading. *)
Lemma stored_granted limit window cs ip now :
  nondecreasing (map call_now cs) ->
  (forall u, u ∈ map call_now cs -> (u <= now)%Q) ->
  prune window now (stored (run (init limit window) cs) ip)
  = prune window now (granted (init limit window) ip cs).
Proof.
  revert now. induction cs as [|c cs IH] using rev_ind; intros now Hclock Hlate.
  - simpl. unfold stored, getitem. simpl. now rewrite lookup_empty.
  - rewrite map_app in Hclock, Hlate. simpl in Hclock, Hlate.
    destruct (nondecreasing_snoc _ _ Hclock) as [Hclock' Hbefore].
    assert (call_now c <= now)%Q as Hc.
    { apply Hlate, elem_of_app. right. left. }
    assert (forall u, u ∈ map call_now cs -> (u <= now)%Q) as Hlate'.
    { intros u Hu. apply Hlate, elem_of_app. now left. }
    rewrite run_snoc, granted_snoc, step_stored_eq, prune_app.
    destruct (run_settings (init limit window) cs) as [_ Hwindow].
    simpl in Hwindow. rewrite Hwindow.
    destruct (bool_decide_reflect (call_ip c = ip)) as [Hip|Hip].
    + rewrite prune_app, prune_prune by exact Hc. now rewrite IH.
    + rewrite (grant_other _ _ _ Hip). simpl. rewrite app_nil_r. now apply IH.
Qed.

Lemma filter_length_le (f g : Q -> bool) l :
  (forall t, t ∈ l -> f t = true -> g t = true) ->
  (length (List.filter f l) <= length (List.filter g l))%nat.
Proof.
  induction l as [|t l IH]; intros Himp; [reflexivity|]. simpl.
  assert (length (List.filter f l) <= length (List.filter g l))%nat as Hrest.
  { apply IH. intros u Hu. apply Himp. now right. }
  destruct (f t) eqn:Hf.
  - rewrite (Himp t ltac:(left) Hf). simpl. lia.
  - destruct (g t); simpl; lia.
Qed.

Lemma within_true window limit_time t :
  within window limit_time t = true
  <-> in_window window limit_time t = true /\ (t <= limit_time)%Q.
Proof. unfold within. now rewrite andb_true_iff, Qle_bool_iff. Qed.

(** X1. The guarantee of the sliding window. Run any sequence of calls on
    a fresh limiter whose limit is not negative, the clock never going
    back. Then, for every identity and every window of [window_seconds]
    seconds (it ends at [limit_time]), at most [max_requests] of the
    granted [is_allowed] calls of that identity have their reading in the
    window. *)
Theorem granted_in_window (limit : Z) (window : Q)
    (cs : list (call (K := K))) ip (limit_time : Q) :
  0 <= limit ->
  nondecreasing (map call_now cs) ->
  len (List.filter (within window limit_time) (granted (init limit window) ip cs))
  <= limit.
Proof.
  intros Hlimit. induction cs as [|c cs IH] using rev_ind; intros Hclock.
  - simpl. exact Hlimit.
  - rewrite map_app in Hclock. simpl in Hclock.
    destruct (nondecreasing_snoc _ _ Hclock) as [Hclock' Hbefore].
    specialize (IH Hclock'). rewrite granted_snoc, List.filter_app.
    destruct (grant_cases (run (init limit window) cs) ip c)
      as [->|(-> & Hip & Hroom)].
    + simpl. now rewrite app_nil_r.
    + simpl. destruct (within window limit_time (call_now c)) eqn:Hin.
      * destruct (run_settings (init limit window) cs) as [Hmax Hwindow].
        simpl in Hmax, Hwindow. rewrite Hmax, Hwindow in Hroom.
        rewrite (stored_granted limit window cs ip (call_now c) Hclock' Hbefore)
          in Hroom.
        apply within_true in Hin as [Hlow Hhigh].
        pose proof (filter_length_le (within window limit_time)
                      (in_window window (call_now c))
                      (granted (init limit window) ip cs)) as Hcount.
        unfold len in *. unfold prune in Hroom. rewrite length_app. simpl.
        enough (length (List.filter (within window limit_time)
                          (granted (init limit window) ip cs))
                <= length (List.filter (in_window window (call_now c))
                             (granted (init limit window) ip cs)))%nat by lia.
        apply Hcount. intros t Ht Hwithin.
        apply within_true in Hwithin as [Htlow _].
        apply (in_window_earlier window (call_now c) limit_time t t);
          [exact Hhigh | lra | exact Htlow].
      * now rewrite app_nil_r.
Qed.

End LimiterHistories.

(** [granted_in_window] on the sample execution, for the minute that ends
    at the instant 65. *)
Lemma granted_in_window_witness :
  RateLimiter.nondecreasing (map RateLimiter.call_now sample_calls)
  /\ History.granted (RateLimiter.init 2 60) "10.0.0.7" sample_calls = [0; 10; 65]%Q
  /\ RateLimiter.len
       (List.filter (History.within 60 65)
          (History.granted (RateLimiter.init 2 60) "10.0.0.7" sample_calls))
     <= 2.
Proof.
  assert (RateLimiter.nondecreasing (map RateLimiter.call_now sample_calls)) as Hclock.
  { simpl. repeat split; vm_compute; discriminate. }
  split; [exact Hclock|]. split; [vm_compute; reflexivity|].
  apply (granted_in_window 2 60 sample_calls "10.0.0.7" 65); [lia | exact Hclock].
Defined.

Section LimiterComposition.

Import RateLimiter.

Context {K : Type} `{Countable K}.

Implicit Types (self : RateLimiter.t K) (ip : K) (now t : Q) (l ts : list Q).

(** With a positive window, a granted call takes exactly one unit of what
    [get_remaining] reports at the same instant, and a refused call none. *)
Lemma remaining_after_is_allowed self ip now :
  (0 < window_seconds self)%Q ->
  fst (get_remaining (snd (is_allowed self ip now)) ip now)
  = fst (get_remaining self ip now)
    - (if fst (is_allowed self ip now) then 1 else 0).
Proof.
  intros Hwindow. rewrite !get_remaining_unfold, is_allowed_unfold. cbv zeta.
  destruct (max_requests self <=? len (prune _ now (stored self ip))) eqn:Hfull;
    simpl; unfold stored at 1; simpl; rewrite getitem_insert.
  - apply Z.leb_le in Hfull. rewrite prune_idempotent. lia.
  - apply Z.leb_gt in Hfull. rewrite prune_app, prune_idempotent. simpl.
    assert (in_window (window_seconds self) now now = true) as ->.
    { apply in_window_self, Hwindow. }
    unfold len in *. rewrite length_app. simpl. lia.
Qed.

Lemma is_allowed_iff_remaining self ip now :
  fst (is_allowed self ip now) = true <-> 0 < fst (get_remaining self ip now).
Proof.
  rewrite get_remaining_unfold, is_allowed_unfold. cbv zeta.
  destruct (max_requests self <=? len (prune _ now (stored self ip))) eqn:Hfull;
    simpl.
  - apply Z.leb_le in Hfull. split; [discriminate | lia].
  - apply Z.leb_gt in Hfull. split; [lia | reflexivity].
Qed.

(** X2. What [get_remaining] reports is what [is_allowed] then gives: with
    a positive window, of [k] calls of [is_allowed] for the identity at the
    same instant, the first [get_remaining] ones (all of them when [k] is
    less) are granted and the others are refused. *)
Theorem remaining_counts_grants (k : nat) : forall self ip now,
  (0 < window_seconds self)%Q ->
  fst (calls self ip (repeat now k))
  = repeat true (Nat.min k (Z.to_nat (fst (get_remaining self ip now))))
    ++ repeat false (k - Z.to_nat (fst (get_remaining self ip now))).
Proof.
  induction k as [|k IH]; intros self ip now Hwindow; [reflexivity|].
  pose proof (remaining_after_is_allowed self ip now Hwindow) as Hafter.
  pose proof (is_allowed_iff_remaining self ip now) as Hiff.
  destruct (is_allowed_settings self ip now) as [_ Hsame].
  change (repeat now (S k)) with (now :: repeat now k).
  rewrite calls_cons. cbn [fst].
  rewrite IH by (rewrite Hsame; exact Hwindow). rewrite Hafter.
  set (r := fst (get_remaining self ip now)) in *.
  destruct (fst (is_allowed self ip now)).
  - assert (0 < r) as Hpos by now apply Hiff.
    replace (Z.to_nat r) with (S (Z.to_nat (r - 1))) by lia.
    reflexivity.
  - assert (~ 0 < r) as Hzero.
    { intros Hpos. apply Hiff in Hpos. discriminate. }
    replace (Z.to_nat (r - 0)) with 0%nat by lia.
    replace (Z.to_nat r) with 0%nat by lia.
    rewrite Nat.min_0_r, !Nat.sub_0_r. reflexivity.
Qed.

(** X3. [get_remaining] changes nothing that can be seen later: when the
    clock does not go back, a later [is_allowed] or [get_remaining] for the
    same identity answers the same, and [is_allowed] leaves the same list,
    whether [get_remaining] was called before or not; and the lists of the
    other identities are never touched. *)
Theorem get_remaining_read_only self ip now later :
  (now <= later)%Q ->
  let self' := snd (get_remaining self ip now) in
  fst (is_allowed self' ip later) = fst (is_allowed self ip later)
  /\ fst (get_remaining self' ip later) = fst (get_remaining self ip later)
  /\ stored (snd (is_allowed self' ip later)) ip
     = stored (snd (is_allowed self ip later)) ip
  /\ (forall ip', ip' <> ip -> stored self' ip' = stored self ip').
Proof.
  intros Hle self'. subst self'.
  rewrite !is_allowed_unfold, !get_remaining_unfold. cbv zeta. simpl snd.
  assert (stored (mk (<[ip := prune (window_seconds self) now (stored self ip)]>
                        (requests self)) (max_requests self) (window_seconds self)) ip
          = prune (window_seconds self) now (stored self ip)) as ->.
  { unfold stored. simpl. apply getitem_insert. }
  simpl max_requests. simpl window_seconds.
  rewrite (prune_prune _ _ _ _ Hle).
  split; [|split; [reflexivity|split]].
  - now destruct (max_requests self <=? _).
  - destruct (max_requests self <=? _); unfold stored; simpl;
      now rewrite !getitem_insert.
  - intros ip' Hne. unfold stored. simpl. apply getitem_insert_ne. congruence.
Qed.

(** X4. Identities do not interfere: calls for other identities, granted
    or not, leave the list of an identity as it is, and with it the answers
    of [is_allowed] and [get_remaining] for that identity. *)
Theorem other_identities_unaffected self ip (cs : list (call (K := K))) :
  (forall c, c ∈ cs -> call_ip c <> ip) ->
  stored (run self cs) ip = stored self ip
  /\ (forall now,
        fst (is_allowed (run self cs) ip now) = fst (is_allowed self ip now)
        /\ fst (get_remaining (run self cs) ip now)
           = fst (get_remaining self ip now)).
Proof.
  intros Hother.
  assert (stored (run self cs) ip = stored self ip) as Hstored.
  { induction cs as [|c cs IH] using rev_ind; [reflexivity|].
    rewrite run_snoc, step_stored_eq.
    destruct (bool_decide_reflect (call_ip c = ip)) as [Hip|_].
    - exfalso. apply (Hother c); [|exact Hip]. apply elem_of_app. right. left.
    - apply IH. intros c' Hc'. apply Hother, elem_of_app. now left. }
  split; [exact Hstored|]. intros now.
  destruct (run_settings self cs) as [Hmax Hwindow].
  rewrite !is_allowed_unfold, !get_remaining_unfold. cbv zeta.
  rewrite Hstored, Hmax, Hwindow. simpl.
  split; [|reflexivity]. now destruct (max_requests self <=? _).
Qed.

Lemma step_dom self (c : call (K := K)) :
  dom (requests (step self c)) = dom (requests self) ∪ {[call_ip c]}.
Proof.
  destruct c as [ip now|ip now]; unfold step, call_ip.
  - rewrite is_allowed_unfold. cbv zeta.
    destruct (max_requests self <=? _); simpl; rewrite dom_insert_L;
      apply (comm_L (∪)).
  - rewrite get_remaining_unfold. simpl. rewrite dom_insert_L.
    apply (comm_L (∪)).
Qed.

(** X5. No entry of the dictionary is ever removed, and every call makes
    one for its identity, a refused [is_allowed] and a [get_remaining]
    included: after the calls [cs] the identities with an entry are those
    that had one before and those of the calls. *)
Theorem identities_never_evicted self (cs : list (call (K := K))) :
  dom (requests (run self cs))
  = dom (requests self) ∪ list_to_set (map call_ip cs).
Proof.
  induction cs as [|c cs IH] using rev_ind.
  - simpl. now rewrite (right_id_L ∅ (∪)).
  - rewrite run_snoc, step_dom, IH, map_app, list_to_set_app_L. simpl.
    now rewrite (right_id_L ∅ (∪)), (assoc_L (∪)).
Qed.

End LimiterComposition.

(** [remaining_counts_grants] on the sample limiter at the instant 65, where
    one request is left: of three calls the first alone is granted. *)
Lemma remaining_counts_grants_witness :
  (0 < RateLimiter.window_seconds sample_limiter)%Q
  /\ fst (RateLimiter.get_remaining sample_limiter "10.0.0.7" 65) = 1
  /\ fst (RateLimiter.calls sample_limiter "10.0.0.7" (repeat 65%Q 3))
     = [true; false; false].
Proof.
  assert (0 < RateLimiter.window_seconds sample_limiter)%Q as Hwindow
    by (vm_compute; reflexivity).
  split; [exact Hwindow|]. split; [vm_compute; reflexivity|].
  rewrite (remaining_counts_grants 3 sample_limiter "10.0.0.7" 65 Hwindow).
  vm_compute. reflexivity.
Defined.

(** [get_remaining_read_only] on the sample limiter read at the instant 62
    and asked at the instant 65. *)
Lemma get_remaining_read_only_witness :
  (62 <= 65)%Q
  /\ fst (RateLimiter.is_allowed
            (snd (RateLimiter.get_remaining sample_limiter "10.0.0.7" 62))
            "10.0.0.7" 65)
     = fst (RateLimiter.is_allowed sample_limiter "10.0.0.7" 65).
Proof.
  assert (62 <= 65)%Q as Hle by (vm_compute; discriminate).
  split; [exact Hle|].
  apply (get_remaining_read_only sample_limiter "10.0.0.7" 62 65 Hle).
Defined.

(** [other_identities_unaffected] on the sample limiter and two calls of
    other clients. *)
Lemma other_identities_unaffected_witness :
  RateLimiter.stored
    (RateLimiter.run sample_limiter
       [RateLimiter.IsAllowed "10.0.0.9" 70; RateLimiter.GetRemaining "10.0.0.8" 71])
    "10.0.0.7"
  = RateLimiter.stored sample_limiter "10.0.0.7".
Proof.
  apply (other_identities_unaffected sample_limiter "10.0.0.7"
           [RateLimiter.IsAllowed "10.0.0.9" 70; RateLimiter.GetRemaining "10.0.0.8" 71]).
  intros c Hc.
  apply elem_of_cons in Hc as [->|Hc]; [discriminate|].
  apply elem_of_cons in Hc as [->|Hc]; [discriminate|].
  inversion Hc.
Defined.

(** ** The validation, further *)

Section ValidationFurther.

Import Py LLMService.

Implicit Types (brand_name platform goal tone s : string).

Lemma lstrip_fixed s :
  match s with String c _ => isspace c = false | EmptyString => True end ->
  lstrip s = s.
Proof. destruct s as [|c s]; simpl; [reflexivity|]. now intros ->. Qed.

Lemma lstrip_head s :
  match lstrip s with String c _ => isspace c = false | EmptyString => True end.
Proof.
  induction s as [|c s IH]; simpl; [exact I|].
  destruct (isspace c) eqn:Hc; [exact IH | exact Hc].
Qed.

Lemma rstrip_head s :
  match s with String c _ => isspace c = false | EmptyString => True end ->
  match rstrip s with String c _ => isspace c = false | EmptyString => True end.
Proof.
  destruct s as [|c s]; simpl; [trivial|]. intros Hc.
  destruct (rstrip s); [rewrite Hc|]; exact Hc.
Qed.

Lemma rstrip_idempotent s : rstrip (rstrip s) = rstrip s.
Proof.
  induction s as [|c s IH]; simpl; [reflexivity|].
  destruct (rstrip s) as [|c' kept] eqn:Hkept.
  - destruct (isspace c) eqn:Hc; simpl; [reflexivity|]. now rewrite Hc.
  - change (rstrip (String c (String c' kept)))
      with (match rstrip (String c' kept) with
            | EmptyString => if isspace c then EmptyString else String c EmptyString
            | String c2 kept2 => String c (String c2 kept2)
            end).
    now rewrite IH.
Qed.

(** Trimming twice is trimming once. *)
Lemma strip_idempotent s : strip (strip s) = strip s.
Proof.
  unfold strip.
  rewrite (lstrip_fixed (rstrip (lstrip s))).
  - apply rstrip_idempotent.
  - apply rstrip_head, lstrip_head.
Qed.

(** X6. [validate_inputs] sees the brand name through [strip] only: the
    verdict and the message are the same for a brand name and for the
    brand name already trimmed, as the view passes it. *)
Theorem validate_inputs_trimmed brand_name platform goal tone :
  validate_inputs (strip brand_name) platform goal tone
  = validate_inputs brand_name platform goal tone.
Proof.
  unfold validate_inputs. cbv zeta.
  now rewrite !required_test, !strip_idempotent.
Qed.

(** X7. [validate_inputs] accepts exactly the inputs whose trimmed brand
    name has from 2 to 100 characters and whose platform, goal and tone are
    each one of the values of its allowlist; and it returns a message
    exactly when it refuses. *)
Theorem validate_inputs_accepts brand_name platform goal tone :
  (validate_inputs brand_name platform goal tone = (true, None)
   <-> (2 <= String.length (strip brand_name) <= 100)%nat
       /\ platform ∈ ALLOWED_PLATFORMS
       /\ goal ∈ ALLOWED_GOALS
       /\ tone ∈ ALLOWED_TONES)
  /\ (fst (validate_inputs brand_name platform goal tone) = true
      <-> snd (validate_inputs brand_name platform goal tone) = None).
Proof.
  unfold validate_inputs. cbv zeta.
  rewrite required_test, eqb_empty_length, <- !mem_true.
  unfold PROFANITY_WORDS. cbn [existsb].
  destruct (Nat.eqb_spec (String.length (strip brand_name)) 0) as [Hzero|Hzero].
  { simpl. split; split; try discriminate. intros (Hlen & _). lia. }
  destruct (Z.ltb_spec (Z.of_nat (String.length (strip brand_name))) 2) as [Hmin|Hmin].
  { simpl. split; split; try discriminate. intros (Hlen & _). lia. }
  destruct (Z.ltb_spec 100 (Z.of_nat (String.length (strip brand_name)))) as [Hmax|Hmax].
  { simpl. split; split; try discriminate. intros (Hlen & _). lia. }
  destruct (mem platform ALLOWED_PLATFORMS), (mem goal ALLOWED_GOALS),
    (mem tone ALLOWED_TONES); cbn [negb fst snd];
    (split;
     [split;
      [intros Heq; try discriminate Heq; repeat split; try reflexivity; lia
      |intros (Hlen & Hplatform & Hgoal & Htone); try discriminate; reflexivity]
     |split; intros Heq; try discriminate Heq; reflexivity]).
Qed.

End ValidationFurther.

(** ** The generation, further *)

Section GenerationFailures.

Import Py LLMService.

Variable json_loads : string -> result json.
Variable create : chat_request -> result completion.

Implicit Types (brand_name platform goal tone : string).

(** X8. [generate_brief] lets two kinds of exception out and no other: a
    [ValueError] that starts with the parse-failure text, exactly when the
    body of its [try] raised a [JSONDecodeError], and otherwise a
    [RuntimeError] that starts with the service-error text; the text of the
    exception of the body follows. *)
Theorem generate_brief_raises brand_name platform goal tone e :
  generate_brief json_loads create brand_name platform goal tone = Raise e ->
  exists cause,
    attempt json_loads create brand_name platform goal tone = Raise cause
    /\ ((isinstance cause JSONDecodeError = true
         /\ e = Exn ValueError
                  ("Failed to parse LLM response as JSON: " +:+ str cause))
        \/ (isinstance cause JSONDecodeError = false
            /\ e = Exn RuntimeError ("LLM service error: " +:+ str cause))).
Proof.
  intros Hraise.
  destruct (attempt json_loads create brand_name platform goal tone)
    as [r|cause] eqn:Hattempt.
  - apply generate_brief_Return in Hattempt. congruence.
  - exists cause. split; [reflexivity|].
    rewrite (generate_brief_Raise _ _ _ _ _ _ _ Hattempt) in Hraise.
    destruct (isinstance cause JSONDecodeError); [left|right];
      (split; [reflexivity|]); unfold raise in Hraise; congruence.
Qed.

(** X9. The failures around the provider's answer. An exception of the
    client that is no [JSONDecodeError], an answer with no choice, and a
    choice whose content is [None] end as a [RuntimeError]; a content that
    [json.loads] refuses ends as a [ValueError] with the text of the
    parser; and an answer of the right shape that comes without a usage
    report ends as a [RuntimeError] too. *)
Theorem generate_brief_failures brand_name platform goal tone :
  (forall e,
     create (request_for brand_name platform goal tone) = Raise e ->
     isinstance e JSONDecodeError = false ->
     generate_brief json_loads create brand_name platform goal tone
     = raise RuntimeError ("LLM service error: " +:+ str e))
  /\ (forall response,
        create (request_for brand_name platform goal tone) = Return response ->
        choices response = [] ->
        generate_brief json_loads create brand_name platform goal tone
        = raise RuntimeError "LLM service error: list index out of range")
  /\ (forall response rest,
        create (request_for brand_name platform goal tone) = Return response ->
        choices response = None :: rest ->
        generate_brief json_loads create brand_name platform goal tone
        = raise RuntimeError
            "LLM service error: the JSON object must be str, bytes or bytearray, not NoneType")
  /\ (forall response text rest e,
        create (request_for brand_name platform goal tone) = Return response ->
        choices response = Some text :: rest ->
        json_loads text = Raise e ->
        isinstance e JSONDecodeError = true ->
        generate_brief json_loads create brand_name platform goal tone
        = raise ValueError ("Failed to parse LLM response as JSON: " +:+ str e))
  /\ (forall response text rest parsed,
        create (request_for brand_name platform goal tone) = Return response ->
        choices response = Some text :: rest ->
        json_loads text = Return parsed ->
        Spec.shaped Spec.three_items parsed = true ->
        usage_report response = None ->
        generate_brief json_loads create brand_name platform goal tone
        = raise RuntimeError
            "LLM service error: 'NoneType' object has no attribute 'total_tokens'").
Proof.
  split; [|split; [|split; [|split]]].
  - intros e Hcreate Hclass.
    rewrite (generate_brief_Raise json_loads create _ _ _ _ e).
    + now rewrite Hclass.
    + unfold attempt. now rewrite Hcreate.
  - intros response Hcreate Hchoices.
    rewrite (generate_brief_Raise json_loads create _ _ _ _
               (Exn IndexError "list index out of range")); [reflexivity|].
    unfold attempt, first_content. rewrite Hcreate. cbn [bind].
    now rewrite Hchoices.
  - intros response rest Hcreate Hchoices.
    rewrite (generate_brief_Raise json_loads create _ _ _ _
               (Exn TypeError
                  "the JSON object must be str, bytes or bytearray, not NoneType"));
      [reflexivity|].
    unfold attempt, first_content. rewrite Hcreate. cbn [bind].
    now rewrite Hchoices.
  - intros response text rest e Hcreate Hchoices Hloads Hclass.
    rewrite (generate_brief_Raise json_loads create _ _ _ _ e).
    + now rewrite Hclass.
    + unfold attempt, first_content. rewrite Hcreate. cbn [bind].
      rewrite Hchoices. cbn [bind loads]. now rewrite Hloads.
  - intros response text rest parsed Hcreate Hchoices Hloads Hshape Husage.
    rewrite (generate_brief_Raise json_loads create _ _ _ _
               (Exn AttributeError
                  "'NoneType' object has no attribute 'total_tokens'"));
      [reflexivity|].
    rewrite (attempt_parsed json_loads create _ _ _ _ response (Some text) parsed
               Hcreate); [|unfold first_content; now rewrite Hchoices|exact Hloads].
    destruct parsed; try discriminate. simpl in Hshape.
    destruct (d !! "brief") as [b|] eqn:Hb; [|discriminate].
    destruct (d !! "angles") as [a|] eqn:Ha; [|discriminate].
    destruct (d !! "criteria") as [c|] eqn:Hc; [|discriminate].
    apply andb_true_iff in Hshape as [Hlen_a Hlen_c].
    rewrite check_keys_dict, Hb, Ha, Hc. cbn [bind].
    assert (forall key message v, d !! key = Some v -> Spec.three_items v = true ->
              check_array (JDict d) key message = Return tt) as Harray.
    { intros key message v Hv Hlen. apply check_array_Return. exists v.
      split; [|exact Hlen]. apply subscript_Return. now exists d. }
    rewrite (Harray _ _ a Ha Hlen_a), (Harray _ _ c Hc Hlen_c). cbn [bind].
    unfold read_usage. now rewrite Husage.
Qed.

End GenerationFailures.

(** [generate_brief_raises] for a provider that cannot be reached. *)
Lemma generate_brief_raises_witness :
  LLMService.generate_brief loads_stub provider_down
    "Acme" "Instagram" "Awareness" "Friendly"
  = Py.Raise (Py.Exn Py.RuntimeError "LLM service error: Connection error.")
  /\ exists cause,
       LLMService.attempt loads_stub provider_down
         "Acme" "Instagram" "Awareness" "Friendly" = Py.Raise cause.
Proof.
  assert (LLMService.generate_brief loads_stub provider_down
            "Acme" "Instagram" "Awareness" "Friendly"
          = Py.Raise (Py.Exn Py.RuntimeError "LLM service error: Connection error."))
    as Hraise by (vm_compute; reflexivity).
  split; [exact Hraise|].
  destruct (generate_brief_raises loads_stub provider_down
              "Acme" "Instagram" "Awareness" "Friendly" _ Hraise)
    as (cause & Hcause & _).
  now exists cause.
Defined.

(** ** The view, further *)

Section ClientIdentity.

Import Py.

Lemma before_comma_no_comma (s : string) :
  ~ In ","%char (list_ascii_of_string (before_comma s)).
Proof.
  induction s as [|c s IH]; simpl; [tauto|].
  destruct (Ascii.eqb_spec c ","%char) as [->|Hne]; simpl; [tauto|].
  intros [Heq|Hin]; [congruence | now apply IH].
Qed.

Lemma before_comma_split (s : string) :
  s = before_comma s
  \/ exists rest, s = before_comma s +:+ String ","%char rest.
Proof.
  induction s as [|c s IH]; simpl; [now left|].
  destruct (Ascii.eqb_spec c ","%char) as [->|Hne]; simpl.
  - right. now exists s.
  - destruct IH as [Hall|[rest Hrest]].
    + left. now rewrite <- Hall.
    + right. exists rest. exact (f_equal (String c) Hrest).
Qed.

(** X10. The identity of the client. A forwarded-for header that is not
    empty decides alone, whatever the socket address is: the identity is
    what stands before its first comma, the whole header when it has none,
    and it holds no comma. Without the header, or with an empty one, the
    identity is the socket address, which may be missing. *)
Theorem get_client_ip_spec (request : views.http_request) :
  (forall x_forwarded_for,
     views.HTTP_X_FORWARDED_FOR request = Some x_forwarded_for ->
     x_forwarded_for <> "" ->
     exists ip,
       views.get_client_ip request = Some ip
       /\ ~ In ","%char (list_ascii_of_string ip)
       /\ (x_forwarded_for = ip
           \/ exists rest, x_forwarded_for = ip +:+ String ","%char rest))
  /\ (views.HTTP_X_FORWARDED_FOR request = None
      \/ views.HTTP_X_FORWARDED_FOR request = Some "" ->
      views.get_client_ip request = views.REMOTE_ADDR request).
Proof.
  unfold views.get_client_ip. split.
  - intros x_forwarded_for -> Hne.
    destruct (String.eqb_spec x_forwarded_for ""); [contradiction|].
    exists (before_comma x_forwarded_for).
    split; [reflexivity|]. split.
    + apply before_comma_no_comma.
    + apply before_comma_split.
  - intros [-> | ->]; reflexivity.
Qed.

End ClientIdentity.

Section ViewOutcomes.

Import Py LLMService.

Variable json_loads : string -> result json.
Variable create : chat_request -> result completion.
Variable OPENAI_API_KEY : string.

Implicit Types (brand_name platform goal tone : string)
  (rate_limiter : RateLimiter.t (option string)) (client_ip : option string).

(** X11. The [try] of the view around the generation always answers, and
    in one of three ways: 200 with the brief that [generate_brief] returned,
    400 with a validation error that is a parse failure, or 500 with a
    service error. It never lets an exception through and never answers
    with an unexpected error. *)
Theorem respond_outcomes rate_limiter client_ip later brand_name platform goal tone :
  exists r,
    fst (views.respond json_loads create rate_limiter client_ip later
           brand_name platform goal tone) = views.Responds r
    /\ ((views.status r = 200
         /\ exists result remaining,
              views.content r = views.BriefPayload result remaining
              /\ generate_brief json_loads create brand_name platform goal tone
                 = Return result)
        \/ (views.status r = 400
            /\ exists text,
                 views.content r
                 = views.ErrorPayload
                     ("Validation error: Failed to parse LLM response as JSON: "
                      +:+ text))
        \/ (views.status r = 500
            /\ exists text,
                 views.content r
                 = views.ErrorPayload
                     ("Service error: LLM service error: " +:+ text))).
Proof.
  rewrite respond_status.
  destruct (attempt json_loads create brand_name platform goal tone)
    as [result|e] eqn:Hattempt.
  - eexists. split; [reflexivity|]. left. split; [reflexivity|].
    eexists _, _. split; [reflexivity|]. now apply generate_brief_Return.
  - destruct (isinstance e JSONDecodeError); eexists; (split; [reflexivity|]).
    + right. left. split; [reflexivity|]. now exists (str e).
    + right. right. split; [reflexivity|]. now exists (str e).
Qed.

(** The limiter after the [try]: untouched, or read by [get_remaining]
    when the answer is 200. *)
Lemma respond_limiter rate_limiter client_ip later brand_name platform goal tone :
  snd (views.respond json_loads create rate_limiter client_ip later
         brand_name platform goal tone) = rate_limiter
  \/ (snd (views.respond json_loads create rate_limiter client_ip later
             brand_name platform goal tone)
      = snd (RateLimiter.get_remaining rate_limiter client_ip later)
      /\ exists r,
           fst (views.respond json_loads create rate_limiter client_ip later
                  brand_name platform goal tone) = views.Responds r
           /\ views.status r = 200).
Proof.
  rewrite respond_status.
  destruct (attempt json_loads create brand_name platform goal tone) as [result|e].
  - right. split; [reflexivity|]. eexists. split; reflexivity.
  - left. now destruct (isinstance e JSONDecodeError).
Qed.

Lemma handle_limiter rate_limiter client_ip later data :
  snd (views.handle json_loads create OPENAI_API_KEY rate_limiter client_ip later data)
  = rate_limiter
  \/ (snd (views.handle json_loads create OPENAI_API_KEY rate_limiter client_ip
             later data)
      = snd (RateLimiter.get_remaining rate_limiter client_ip later)
      /\ exists r,
           fst (views.handle json_loads create OPENAI_API_KEY rate_limiter client_ip
                  later data) = views.Responds r
           /\ views.status r = 200).
Proof.
  unfold views.handle.
  destruct (_ <- views.field data "brand_name" ;; _) as [[[[b p] g] t]|e];
    [|now left].
  destruct (validate_inputs b p g t) as [[|] message]; [|now left].
  apply respond_limiter.
Qed.

(** X12. The rate limit is charged first. A request that is no POST is
    answered 405 and leaves the limiter alone. A POST always goes through
    [is_allowed]: the limiter afterwards is the one [is_allowed] leaves,
    read once more by [get_remaining] when the answer is 200. So a granted
    POST that is not answered 200 (bad JSON, refused inputs, a failure of
    the provider, an exception) has its reading stored as the newest
    timestamp of its client: it counts against the limit. *)
Theorem view_charges_quota rate_limiter (request : views.http_request) (now later : Q) :
  let client_ip := views.get_client_ip request in
  let charged := snd (RateLimiter.is_allowed rate_limiter client_ip now) in
  let answer :=
    views.generate_brief json_loads create OPENAI_API_KEY rate_limiter request
      now later in
  (views.method request <> "POST" ->
   answer = (views.Responds {| views.status := 405; views.content := views.NoPayload |},
             rate_limiter))
  /\ (views.method request = "POST" ->
      (snd answer = charged
       \/ (snd answer = snd (RateLimiter.get_remaining charged client_ip later)
           /\ exists r, fst answer = views.Responds r /\ views.status r = 200))
      /\ (fst (RateLimiter.is_allowed rate_limiter client_ip now) = true ->
          (forall r, fst answer = views.Responds r -> views.status r <> 200) ->
          last (RateLimiter.stored (snd answer) client_ip) = Some now)).
Proof.
  intros client_ip charged answer. split.
  - intros Hmethod. subst answer. unfold views.generate_brief.
    destruct (String.eqb_spec (views.method request) "POST"); [contradiction|].
    reflexivity.
  - intros Hmethod.
    assert (snd answer = charged
            \/ (snd answer = snd (RateLimiter.get_remaining charged client_ip later)
                /\ exists r, fst answer = views.Responds r /\ views.status r = 200))
      as Hlimiter.
    { subst answer charged. unfold views.generate_brief. rewrite Hmethod.
      cbv zeta. fold client_ip.
      destruct (RateLimiter.is_allowed rate_limiter client_ip now)
        as [allowed rate_limiter1].
      destruct allowed; simpl; [|now left].
      destruct (json_loads (views.body request)) as [data|e].
      - apply handle_limiter.
      - left. now destruct (isinstance e JSONDecodeError). }
    split; [exact Hlimiter|]. intros Hgranted Hfailed.
    destruct Hlimiter as [->|(_ & r & Hr & Hstatus)].
    + subst charged.
      destruct (is_allowed_granted rate_limiter client_ip now Hgranted) as [-> _].
      apply last_snoc.
    + exfalso. exact (Hfailed r Hr Hstatus).
Qed.

(** X13. A refusal of the limiter comes before everything else: when the
    timestamps of the client that are still in the window are
    [max_requests] or more, a POST is answered 429 with [remaining] 0
    whatever its body is and whatever the provider would do, and nothing is
    recorded for it. *)
Theorem view_rate_limited rate_limiter (request : views.http_request) (now later : Q) :
  views.method request = "POST" ->
  RateLimiter.max_requests rate_limiter
  <= RateLimiter.len
       (RateLimiter.prune (RateLimiter.window_seconds rate_limiter) now
          (RateLimiter.stored rate_limiter (views.get_client_ip request))) ->
  fst (views.generate_brief json_loads create OPENAI_API_KEY rate_limiter request
         now later)
  = views.Responds
      {| views.status := 429;
         views.content :=
           views.RateLimitPayload "Rate limit exceeded. Please try again later." 0 |}
  /\ RateLimiter.stored
       (snd (views.generate_brief json_loads create OPENAI_API_KEY rate_limiter
               request now later))
       (views.get_client_ip request)
     = RateLimiter.prune (RateLimiter.window_seconds rate_limiter) now
         (RateLimiter.stored rate_limiter (views.get_client_ip request)).
Proof.
  intros Hmethod Hfull. unfold views.generate_brief. rewrite Hmethod. cbv zeta.
  rewrite is_allowed_unfold. cbv zeta.
  apply Z.leb_le in Hfull. rewrite Hfull. simpl.
  split; [reflexivity|]. unfold RateLimiter.stored at 1. simpl.
  apply getitem_insert.
Qed.

End ViewOutcomes.

(** [view_rate_limited] on a limiter that is full for the client, with a
    body that is no JSON and a provider that is down. *)
Lemma view_rate_limited_witness :
  views.method (post "no JSON") = "POST"
  /\ fst (views.generate_brief loads_stub provider_down "sk-test" full_limiter
            (post "no JSON") 10 11)
     = views.Responds
         {| views.status := 429;
            views.content :=
              views.RateLimitPayload "Rate limit exceeded. Please try again later." 0 |}.
Proof.
  split; [reflexivity|].
  apply (view_rate_limited loads_stub provider_down "sk-test" full_limiter
           (post "no JSON") 10 11); [reflexivity|].
  vm_compute. discriminate.
Defined.

Section ViewFields.

Import Py LLMService.

Variable json_loads : string -> result json.
Variable create : chat_request -> result completion.
Variable OPENAI_API_KEY : string.

Implicit Types (brand_name platform goal tone : string)
  (rate_limiter : RateLimiter.t (option string)) (client_ip : option string).

(** A field of an object is read, or the read raises [AttributeError]. *)
Lemma field_dict_cases (d : gmap string json) (key : string) :
  (exists s, views.field (JDict d) key = Return s)
  \/ (exists text, views.field (JDict d) key = Raise (Exn AttributeError text)).
Proof.
  unfold views.field, raise.
  destruct (default (JStr "") (d !! key)); eauto.
Qed.

Lemma field_not_string (d : gmap string json) (key : string) (v : json) :
  d !! key = Some v ->
  (forall s, v <> JStr s) ->
  exists text, views.field (JDict d) key = Raise (Exn AttributeError text).
Proof.
  intros Hkey Hv. unfold views.field, raise. rewrite Hkey. simpl.
  destruct v; eauto. now destruct (Hv s).
Qed.

Lemma field_missing (d : gmap string json) (key : string) :
  d !! key = None -> views.field (JDict d) key = Return "".
Proof. intros Hkey. unfold views.field. now rewrite Hkey. Qed.

(** X14. The fields of the body. A parsed body that is no object, and an
    object in which one of the four fields is present and is no string,
    make the view raise [AttributeError] (no answer with status 400 is
    made). A missing [brand_name], the other fields being readable, is read
    as the empty string and answered 400 with the message that the brand
    name is required. *)
Theorem handle_fields rate_limiter client_ip later data :
  ((forall d, data <> JDict d) ->
   fst (views.handle json_loads create OPENAI_API_KEY rate_limiter client_ip later data)
   = views.Propagates
       (Exn AttributeError
          ("'" +:+ type_name data +:+ "' object has no attribute 'get'")))
  /\ (forall d key v,
        data = JDict d ->
        key ∈ ["brand_name"; "platform"; "goal"; "tone"] ->
        d !! key = Some v ->
        (forall s, v <> JStr s) ->
        exists e,
          fst (views.handle json_loads create OPENAI_API_KEY rate_limiter client_ip
                 later data) = views.Propagates e
          /\ class_of e = AttributeError)
  /\ (forall d platform goal tone,
        data = JDict d ->
        d !! "brand_name" = None ->
        views.field data "platform" = Return platform ->
        views.field data "goal" = Return goal ->
        views.field data "tone" = Return tone ->
        OPENAI_API_KEY <> "" ->
        fst (views.handle json_loads create OPENAI_API_KEY rate_limiter client_ip
               later data)
        = views.Responds
            {| views.status := 400;
               views.content := views.ErrorPayload "Brand name is required" |}).
Proof.
  split; [|split].
  - intros Hdata. unfold views.handle, views.field.
    destruct data; try reflexivity. now destruct (Hdata d).
  - intros d key v -> Hkey Hv Hbad.
    destruct (field_not_string d key v Hv Hbad) as [text Hraise].
    unfold views.handle.
    destruct (field_dict_cases d "brand_name") as [[b Hb]|[tb Hb]];
      [|rewrite Hb; simpl; eauto].
    destruct (field_dict_cases d "platform") as [[p Hp]|[tp Hp]];
      [|rewrite Hb, Hp; simpl; eauto].
    destruct (field_dict_cases d "goal") as [[g Hg]|[tg Hg]];
      [|rewrite Hb, Hp, Hg; simpl; eauto].
    destruct (field_dict_cases d "tone") as [[t Ht]|[tt Ht]];
      [|rewrite Hb, Hp, Hg, Ht; simpl; eauto].
    exfalso. rewrite !elem_of_cons, elem_of_nil in Hkey.
    destruct Hkey as [->|[->|[->|[->|[]]]]]; congruence.
  - intros d platform goal tone -> Hmissing Hplatform Hgoal Htone Hkey.
    rewrite (handle_refusal json_loads create OPENAI_API_KEY rate_limiter
               client_ip later (JDict d) "" platform goal tone
               "Brand name is required"); try assumption; try reflexivity.
    now apply field_missing.
Qed.

(** X15. Without an API key nothing is validated and no answer is made: a
    POST that the limiter grants and whose body parses into four string
    fields ends with the [ValueError] of the constructor of the service
    leaving the view, whether the inputs are valid or not; the request has
    been recorded by the limiter all the same. *)
Theorem view_without_key rate_limiter (request : views.http_request) (now later : Q)
    data brand_name platform goal tone :
  OPENAI_API_KEY = "" ->
  views.method request = "POST" ->
  fst (RateLimiter.is_allowed rate_limiter (views.get_client_ip request) now) = true ->
  json_loads (views.body request) = Return data ->
  views.field data "brand_name" = Return brand_name ->
  views.field data "platform" = Return platform ->
  views.field data "goal" = Return goal ->
  views.field data "tone" = Return tone ->
  views.generate_brief json_loads create OPENAI_API_KEY rate_limiter request now later
  = (views.Propagates
       (Exn ValueError "OPENAI_API_KEY not set in environment variables"),
     snd (RateLimiter.is_allowed rate_limiter (views.get_client_ip request) now)).
Proof.
  intros Hkey Hmethod Hgranted Hbody Hbrand Hplatform Hgoal Htone.
  rewrite (view_reaches_handle json_loads create OPENAI_API_KEY _ _ _ _ _
             Hmethod Hgranted Hbody).
  unfold views.handle. rewrite Hbrand, Hplatform, Hgoal, Htone, Hkey.
  reflexivity.
Qed.

(** X16. The whole way to an answer 200. A POST that the limiter grants,
    whose body parses into four string fields that [validate_inputs]
    accepts, and a provider whose first choice parses into an object with
    the three keys, angles and criteria of 3 items and a usage report
    whose prompt and completion token counts convert to doubles (their
    magnitude is below [2 ^ 1024 - 2 ^ 970]): the view answers 200 with the
    three values as they came, the three token counts of the usage report,
    and what [get_remaining] reports for the client after the request was
    recorded. *)
Theorem view_success rate_limiter (request : views.http_request) (now later : Q)
    data brand_name platform goal tone response text rest d b a c u :
  views.method request = "POST" ->
  fst (RateLimiter.is_allowed rate_limiter (views.get_client_ip request) now) = true ->
  json_loads (views.body request) = Return data ->
  views.field data "brand_name" = Return brand_name ->
  views.field data "platform" = Return platform ->
  views.field data "goal" = Return goal ->
  views.field data "tone" = Return tone ->
  OPENAI_API_KEY <> "" ->
  validate_inputs brand_name platform goal tone = (true, None) ->
  create (request_for brand_name platform goal tone) = Return response ->
  choices response = Some text :: rest ->
  json_loads text = Return (JDict d) ->
  d !! "brief" = Some b ->
  d !! "angles" = Some a ->
  d !! "criteria" = Some c ->
  Spec.three_items a = true ->
  Spec.three_items c = true ->
  usage_report response = Some u ->
  Z.abs (prompt_tokens u) < Double.int_overflow ->
  Z.abs (completion_tokens u) < Double.int_overflow ->
  let charged :=
    snd (RateLimiter.is_allowed rate_limiter (views.get_client_ip request) now) in
  views.generate_brief json_loads create OPENAI_API_KEY rate_limiter request now later
  = (views.Responds
       {| views.status := 200;
          views.content :=
            views.BriefPayload
              {| brief_text := b; angles := a; criteria := c;
                 telemetry_of :=
                   {| tokens_total := total_tokens u;
                      tokens_prompt := prompt_tokens u;
                      tokens_completion := completion_tokens u |} |}
              (fst (RateLimiter.get_remaining charged
                      (views.get_client_ip request) later)) |},
     snd (RateLimiter.get_remaining charged (views.get_client_ip request) later)).
Proof.
  intros Hmethod Hgranted Hbody Hbrand Hplatform Hgoal Htone Hkey Hvalid
    Hcreate Hchoices Hloads Hb Ha Hc Hlen_a Hlen_c Hu Hprompt Hcompletion charged.
  rewrite (view_reaches_handle json_loads create OPENAI_API_KEY _ _ _ _ _
             Hmethod Hgranted Hbody).
  fold charged. unfold views.handle.
  rewrite Hbrand, Hplatform, Hgoal, Htone. simpl.
  rewrite (init_key OPENAI_API_KEY Hkey). simpl. rewrite Hvalid.
  rewrite respond_status.
  rewrite (attempt_shaped json_loads create _ _ _ _ response (Some text) d b a c u
             Hcreate); try assumption; [reflexivity|].
  unfold first_content. now rewrite Hchoices.
Qed.

End ViewFields.

(** [view_without_key] for the sample request, whose inputs are valid. *)
Lemma view_without_key_witness :
  fst (views.generate_brief loads_stub (provider_stub "good answer") "" view_limiter
         (post "request") 0 1)
  = views.Propagates
      (Py.Exn Py.ValueError "OPENAI_API_KEY not set in environment variables").
Proof.
  rewrite (view_without_key loads_stub (provider_stub "good answer") ""
             view_limiter (post "request") 0 1 (request_data "Instagram")
             "Acme" "Instagram" "Awareness" "Friendly");
    reflexivity.
Defined.

(** [view_success] for the sample request and the good answer of the
    provider. *)
Lemma view_success_witness :
  exists result,
    fst (views.generate_brief loads_stub (provider_stub "good answer") "sk-test"
           view_limiter (post "request") 0 1)
    = views.Responds
        {| views.status := 200; views.content := views.BriefPayload result 4 |}.
Proof.
  eexists.
  rewrite (view_success loads_stub (provider_stub "good answer") "sk-test"
             view_limiter (post "request") 0 1 (request_data "Instagram")
             "Acme" "Instagram" "Awareness" "Friendly"
             {| LLMService.choices := [Some "good answer"];
                LLMService.usage_report :=
                  Some {| LLMService.total_tokens := 300;
                          LLMService.prompt_tokens := 100;
                          LLMService.completion_tokens := 200 |} |}
             "good answer" []
             (<["brief" := Py.JStr "A short brief."]>
                (<["angles" := Py.JList [Py.JStr "one"; Py.JStr "two"; Py.JStr "three"]]>
                   (<["criteria" := Py.JList [Py.JStr "reach"; Py.JStr "fit"; Py.JStr "voice"]]> ∅)))
             (Py.JStr "A short brief.")
             (Py.JList [Py.JStr "one"; Py.JStr "two"; Py.JStr "three"])
             (Py.JList [Py.JStr "reach"; Py.JStr "fit"; Py.JStr "voice"])
             {| LLMService.total_tokens := 300;
                LLMService.prompt_tokens := 100;
                LLMService.completion_tokens := 200 |});
    try reflexivity.
  discriminate.
Defined.

(** ** The order of the stored timestamps *)

Section LimiterOrder.

Import RateLimiter.

Context {K : Type} `{Countable K}.

Implicit Types (self : RateLimiter.t K) (ip : K) (now t : Q) (l ts : list Q).

Lemma nondecreasing_build t ts :
  nondecreasing ts -> (forall u, u ∈ ts -> (t <= u)%Q) -> nondecreasing (t :: ts).
Proof.
  intros Hsorted Hlow. destruct ts as [|u ts]; [split; exact I|].
  split; [apply Hlow; left | exact Hsorted].
Qed.

Lemma nondecreasing_prune window now l :
  nondecreasing l -> nondecreasing (prune window now l).
Proof.
  induction l as [|t l IH]; intros Hsorted; [exact I|].
  destruct (nondecreasing_cons t l Hsorted) as [Hrest Hlow]. simpl.
  destruct (in_window window now t); [|now apply IH].
  apply nondecreasing_build; [now apply IH|].
  intros u Hu. apply Hlow. apply elem_of_prune in Hu. tauto.
Qed.

Lemma nondecreasing_append l t :
  nondecreasing l -> (forall u, u ∈ l -> (u <= t)%Q) -> nondecreasing (l ++ [t]).
Proof.
  induction l as [|u l IH]; intros Hsorted Hhigh; [split; exact I|].
  destruct (nondecreasing_cons u l Hsorted) as [Hrest Hlow]. simpl.
  apply nondecreasing_build.
  - apply IH; [exact Hrest|]. intros v Hv. apply Hhigh. now right.
  - intros v Hv. apply elem_of_app in Hv as [Hv|Hv]; [now apply Hlow|].
    apply list_elem_of_singleton in Hv as ->. apply Hhigh. left.
Qed.

(** X17. The timestamps of an identity are kept oldest first: from a fresh
    limiter and with a clock that never goes back, after any sequence of
    calls the list of every identity is in nondecreasing order, so that its
    head is the oldest recorded request. *)
Theorem stored_oldest_first (limit : Z) (window : Q) (cs : list (call (K := K))) ip :
  nondecreasing (map call_now cs) ->
  nondecreasing (stored (run (init limit window) cs) ip).
Proof.
  induction cs as [|c cs IH] using rev_ind; intros Hclock.
  - unfold stored, getitem. simpl. rewrite lookup_empty. exact I.
  - rewrite map_app in Hclock. simpl in Hclock.
    assert (nondecreasing (map call_now cs)
            /\ forall u, u ∈ map call_now cs -> (u <= call_now c)%Q)
      as [Hclock' Hbefore].
    { split.
      - clear -Hclock. induction (map call_now cs) as [|u ts IHts]; [exact I|].
        destruct ts as [|u2 ts]; [split; exact I|].
        destruct Hclock as [Hle Hrest]. split; [exact Hle|]. apply IHts, Hrest.
      - intros u Hu.
        apply (nondecreasing_le_last (map call_now cs ++ [call_now c])
                 (call_now c) Hclock); [apply last_snoc|].
        apply elem_of_app. now left. }
    specialize (IH Hclock'). rewrite run_snoc.
    pose proof (nondecreasing_prune
                  (window_seconds (run (init limit window) cs)) (call_now c) _ IH)
      as Hpruned.
    destruct c as [ip0 now|ip0 now]; unfold step; simpl in Hbefore.
    + rewrite is_allowed_unfold. cbv zeta.
      destruct (max_requests _ <=? _); unfold stored at 1; simpl;
        (destruct (decide (ip0 = ip)) as [->|Hne];
         [rewrite getitem_insert | rewrite getitem_insert_ne by exact Hne;
                                   exact IH]).
      * exact Hpruned.
      * apply nondecreasing_append; [exact Hpruned|].
        intros u Hu. apply elem_of_prune in Hu as [Hu _].
        apply run_stored in Hu as [Hinit|Hcall]; [|now apply Hbefore].
        unfold stored, getitem in Hinit. simpl in Hinit.
        rewrite lookup_empty in Hinit. inversion Hinit.
    + rewrite get_remaining_unfold. unfold stored at 1. simpl.
      destruct (decide (ip0 = ip)) as [->|Hne];
        [rewrite getitem_insert; exact Hpruned
        |rewrite getitem_insert_ne by exact Hne; exact IH].
Qed.

End LimiterOrder.

(** [stored_oldest_first] on the sample execution. *)
Lemma stored_oldest_first_witness :
  RateLimiter.nondecreasing (map RateLimiter.call_now sample_calls)
  /\ RateLimiter.nondecreasing
       (RateLimiter.stored (RateLimiter.run (RateLimiter.init 2 60) sample_calls)
          "10.0.0.7").
Proof.
  assert (RateLimiter.nondecreasing (map RateLimiter.call_now sample_calls)) as Hclock.
  { simpl. repeat split; vm_compute; discriminate. }
  split; [exact Hclock|].
  exact (stored_oldest_first 2 60 sample_calls "10.0.0.7" Hclock).
Defined.

(** [generate_brief_failures] for a provider that cannot be reached and for
    an answer that is no JSON. *)
Lemma generate_brief_failures_witness :
  LLMService.generate_brief loads_stub provider_down
    "Acme" "Instagram" "Awareness" "Friendly"
  = Py.raise Py.RuntimeError "LLM service error: Connection error."
  /\ LLMService.generate_brief loads_stub (provider_stub "no JSON")
       "Acme" "Instagram" "Awareness" "Friendly"
     = Py.raise Py.ValueError
         "Failed to parse LLM response as JSON: Expecting value: line 1 column 1 (char 0)".
Proof.
  split.
  - destruct (generate_brief_failures loads_stub provider_down
                "Acme" "Instagram" "Awareness" "Friendly") as (Hdown & _).
    apply (Hdown (Py.Exn (Py.Subclass "APIConnectionError" Py.Exception_)
                    "Connection error.")); reflexivity.
  - destruct (generate_brief_failures loads_stub (provider_stub "no JSON")
                "Acme" "Instagram" "Awareness" "Friendly")
      as (_ & _ & _ & Hparse & _).
    eapply (Hparse _ "no JSON" []
              (Py.Exn Py.JSONDecodeError "Expecting value: line 1 column 1 (char 0)"));
      reflexivity.
Defined.

(** [get_client_ip_spec] for a header with two entries. *)
Lemma get_client_ip_spec_witness :
  views.get_client_ip
    {| views.method := "POST";
       views.HTTP_X_FORWARDED_FOR := Some "203.0.113.5, 10.0.0.1";
       views.REMOTE_ADDR := Some "10.0.0.1";
       views.body := "request" |}
  = Some "203.0.113.5".
Proof.
  destruct (get_client_ip_spec
              {| views.method := "POST";
                 views.HTTP_X_FORWARDED_FOR := Some "203.0.113.5, 10.0.0.1";
                 views.REMOTE_ADDR := Some "10.0.0.1";
                 views.body := "request" |}) as [Hheader _].
  destruct (Hheader "203.0.113.5, 10.0.0.1" eq_refl ltac:(discriminate))
    as (ip & Hip & _).
  rewrite Hip. vm_compute in Hip. exact (eq_sym Hip).
Defined.

(** [view_charges_quota] for a granted request whose body is no JSON: the
    answer is 400 and the reading 7 is stored. *)
Lemma view_charges_quota_witness :
  fst (views.generate_brief loads_stub provider_down "sk-test" view_limiter
         (post "no JSON") 7 8)
  = views.Responds
      {| views.status := 400;
         views.content := views.ErrorPayload "Invalid JSON in request body" |}
  /\ last (RateLimiter.stored
             (snd (views.generate_brief loads_stub provider_down "sk-test"
                     view_limiter (post "no JSON") 7 8))
             (Some "10.0.0.7"))
     = Some 7%Q.
Proof.
  split; [vm_compute; reflexivity|].
  destruct (view_charges_quota loads_stub provider_down "sk-test" view_limiter
              (post "no JSON") 7 8) as [_ Hpost].
  cbv zeta in Hpost. destruct (Hpost eq_refl) as [_ Hrecorded].
  apply Hrecorded; [reflexivity|].
  intros r Hr. vm_compute in Hr. injection Hr as <-. discriminate.
Defined.

(** [handle_fields] for a body that is a list and for one whose brand name
    is a number. *)
Lemma handle_fields_witness :
  fst (views.handle loads_stub provider_down "sk-test" view_limiter
         (Some "10.0.0.7") 1 (Py.JList []))
  = views.Propagates
      (Py.Exn Py.AttributeError "'list' object has no attribute 'get'")
  /\ exists e,
       fst (views.handle loads_stub provider_down "sk-test" view_limiter
              (Some "10.0.0.7") 1 (Py.JDict (<["brand_name" := Py.JInt 5]> ∅)))
       = views.Propagates e
       /\ Py.class_of e = Py.AttributeError.
Proof.
  split.
  - apply (handle_fields loads_stub provider_down "sk-test" view_limiter
             (Some "10.0.0.7") 1 (Py.JList [])).
    discriminate.
  - destruct (handle_fields loads_stub provider_down "sk-test" view_limiter
                (Some "10.0.0.7") 1 (Py.JDict (<["brand_name" := Py.JInt 5]> ∅)))
      as (_ & Hbad & _).
    apply (Hbad (<["brand_name" := Py.JInt 5]> ∅) "brand_name" (Py.JInt 5));
      [reflexivity | left | reflexivity | discriminate].
Defined.
